(** * Tinymovr DFU host tool: a shallow embedding of [tinymovr/dfu.py]

    The firmware-update pipeline of [studio/Python/tinymovr/dfu.py] is
    embedded as executable functions in a small monad that threads the state
    of the addressed device, records every request sent to it (together with
    console output) in a chronological event list, and distinguishes a normal
    return from [sys.exit] and from a raised exception. *)

From Stdlib Require Import ZArith List Bool Lia Arith.
From Stdlib.Strings Require Import String Ascii Byte.
Import ListNotations.

Local Open Scope Z_scope.

(** ** Module-level constants *)

Definition BIN_CHUNK_SIZE : nat := 4.
Definition FLASH_START_ADDR : Z := 0x00001000.

(** NVM config region: pages 120-127 (8 KB at end of flash). *)
Definition NVM_START_ADDR : Z := 0x0001E000.
Definition NVM_SIZE : Z := 8 * 1024.

(** ** Python byte strings *)

(** [b[lo:hi]] on a [bytes] object; out-of-range bounds are clipped. *)
Definition slice {A : Type} (lo hi : nat) (l : list A) : list A :=
  firstn (hi - lo) (skipn lo l).

(** [int.from_bytes(bs, byteorder="little")]; the empty string gives 0. *)
Fixpoint int_from_bytes (bs : list byte) : Z :=
  match bs with
  | [] => 0
  | b :: bs' => Z.of_N (Byte.to_N b) + 256 * int_from_bytes bs'
  end.

Definition byte_of_Z (z : Z) : byte :=
  match Byte.of_N (Z.to_N z) with
  | Some b => b
  | None => x00
  end.

Fixpoint le_bytes (n : nat) (v : Z) : list byte :=
  match n with
  | O => []
  | S n' => byte_of_Z (v mod 256) :: le_bytes n' (v / 256)
  end.

(** [v.to_bytes(n, byteorder="little")]: [None] stands for the
    [OverflowError] Python raises for a negative or too large [v]. *)
Definition to_bytes (n : nat) (v : Z) : option (list byte) :=
  if (0 <=? v) && (v <? 256 ^ Z.of_nat n) then Some (le_bytes n v) else None.

(** [all(b == 0xFF for b in data)] *)
Definition all_ff (data : list byte) : bool :=
  forallb (fun b => Byte.eqb b xff) data.

(** [bin_file.read(n)] on a file object whose unread content is [f]:
    the bytes returned and the content left. *)
Definition file_read (n : nat) (f : list byte) : list byte * list byte :=
  (firstn n f, skipn n f).

(** Truth value of a [bytes] object: empty is false. *)
Definition nonempty {A : Type} (l : list A) : bool :=
  match l with [] => false | _ :: _ => true end.

(** The four words the loops form from one chunk:
    [int.from_bytes(chunk[i*4:(i+1)*4], "little")] for [i] in [range(4)]. *)
Definition chunk_word (chunk : list byte) (i : nat) : Z :=
  int_from_bytes (slice (i * 4) ((i + 1) * 4) chunk).

Definition calculate_local_checksum (chunk : list byte) : Z :=
  let checksum :=
    fold_left Z.add (map (chunk_word chunk) (seq 0 BIN_CHUNK_SIZE)) 0 in
  Z.land checksum 0xFFFFFFFF.

(** ** Formatting of [{flash_addr:08X}] *)

Definition hex_digit (d : Z) : ascii :=
  nth (Z.to_nat d)
      ["0"; "1"; "2"; "3"; "4"; "5"; "6"; "7";
       "8"; "9"; "A"; "B"; "C"; "D"; "E"; "F"]%char "0"%char.

Fixpoint hex_digits (n : nat) (z : Z) (acc : string) : string :=
  match n with
  | O => acc
  | S n' => hex_digits n' (z / 16) (String (hex_digit (z mod 16)) acc)
  end.

(** Upper-case hexadecimal, zero-padded to at least 8 digits
    (for a non-negative [z], as every flash address here is). *)
Definition hex08 (z : Z) : string :=
  hex_digits (Nat.max 8 (Z.to_nat (Z.log2 z / 4 + 1))) z EmptyString.

(** ** Outcomes, events and the pipeline monad *)

Inductive exn : Type :=
| FileNotFoundError (msg : string)
| ResponseError
| OverflowError.

(** How a Python call ends.  [OutOfFuel] is the model's own: a loop that
    was cut before the Python loop would have ended. *)
Inductive result (A : Type) : Type :=
| Returned (a : A)
| Exited (code : Z)
| Raised (e : exn)
| OutOfFuel.

Arguments Returned {A} a.
Arguments Exited {A} code.
Arguments Raised {A} e.
Arguments OutOfFuel {A}.

(** Everything the program does that is visible from outside, in order.
    A seeded [commit]/[erase_all] call carries [Some seed]; a call that
    raised [TypeError] has result [None]. *)
Inductive event : Type :=
| EvInitRouter
| EvDestroyRouter
| EvCreateDevice (responded : bool)
| EvReadFlash (addr value : Z)
| EvWriteScratch (index value : Z)
| EvCommit (addr : Z) (seed : option Z) (res : option Z)
| EvEraseAll (seed : option Z) (res : option Z)
| EvReset
| EvSleep
| EvPrint (msg : string)
| EvInput (prompt : string)
| EvProgressAdd (label : string) (total : Z)
| EvProgressUpdate (advance : Z).

(** The device object, as the tool uses it.  [St] is whatever state the
    device and the bus hold; every method is a request that may change it.
    The seeded forms return [None] when the call raises [TypeError]. *)
Record DeviceOps (St : Type) : Type := {
  hash_uint32 : Z;
  dev_read_flash_32 : St -> Z -> Z * St;
  dev_write_scratch_32 : St -> Z -> Z -> St;
  dev_commit_seeded : St -> Z -> Z -> option Z * St;
  dev_commit : St -> Z -> Z * St;
  dev_erase_all_seeded : St -> Z -> option Z * St;
  dev_erase_all : St -> Z * St;
  dev_reset : St -> St;
  (** [create_device(node_id=...)]: [false] is a [ResponseError]. *)
  dev_create : St -> bool * St
}.

Arguments hash_uint32 {St} _.
Arguments dev_read_flash_32 {St} _ _ _.
Arguments dev_write_scratch_32 {St} _ _ _ _.
Arguments dev_commit_seeded {St} _ _ _ _.
Arguments dev_commit {St} _ _ _.
Arguments dev_erase_all_seeded {St} _ _ _.
Arguments dev_erase_all {St} _ _.
Arguments dev_reset {St} _ _.
Arguments dev_create {St} _ _.

Definition M (St A : Type) : Type := St -> result A * St * list event.

Definition ret {St A : Type} (a : A) : M St A :=
  fun s => (Returned a, s, []).

Definition bind {St A B : Type} (m : M St A) (k : A -> M St B) : M St B :=
  fun s =>
    match m s with
    | (Returned a, s1, e1) =>
        match k a s1 with
        | (r, s2, e2) => (r, s2, e1 ++ e2)
        end
    | (Exited c, s1, e1) => (Exited c, s1, e1)
    | (Raised x, s1, e1) => (Raised x, s1, e1)
    | (OutOfFuel, s1, e1) => (OutOfFuel, s1, e1)
    end.

Notation "x <- m ;; k" := (bind m (fun x => k))
  (at level 61, m at next level, right associativity).
Notation "m ;;; k" := (bind m (fun _ => k))
  (at level 61, right associativity).

Definition emit {St : Type} (e : event) : M St unit :=
  fun s => (Returned tt, s, [e]).

Definition print {St : Type} (msg : string) : M St unit := emit (EvPrint msg).

Definition sys_exit {St A : Type} (code : Z) : M St A :=
  fun s => (Exited code, s, []).

Definition raise {St A : Type} (x : exn) : M St A :=
  fun s => (Raised x, s, []).

Definition out_of_fuel {St A : Type} : M St A :=
  fun s => (OutOfFuel, s, []).

(** [for x in l: body(x)] for a body that has no [break] or [return]. *)
Fixpoint for_each {St A : Type} (l : list A) (body : A -> M St unit)
  : M St unit :=
  match l with
  | [] => ret tt
  | x :: l' => body x ;;; for_each l' body
  end.

(** ** Console messages *)

Definition nl : string := String "010"%char EmptyString.

Definition progress_label (colour str : string) : string :=
  (colour ++ str ++ "...")%string.

Definition msg_checksum_mismatch (flash_addr : Z) : string :=
  ("Checksum mismatch at address " ++ hex08 flash_addr ++ ". Exiting...")%string.

Definition msg_not_found (bin_path : string) : string :=
  ("Bin file " ++ bin_path ++ " not found!")%string.

(** Command-line arguments that [spawn] branches on; [--node_id], [--bus],
    [--chan] and [--bitrate] only parameterise the bus session. *)
Record arguments : Type := {
  arg_bin : option string;
  arg_recovery : bool;
  arg_no_reset : bool;
  arg_force : bool
}.

(** Truth value of [arguments["--bin"]]: [None] and the empty string are
    false. *)
Definition truthy (p : option string) : bool :=
  match p with
  | None => false
  | Some EmptyString => false
  | Some (String _ _) => true
  end.

Definition path_of (p : option string) : string :=
  match p with
  | Some s => s
  | None => EmptyString
  end.

(** ** The pipeline *)

Section Pipeline.

Variable St : Type.
Variable ops : DeviceOps St.
(** The file system: the content of each regular file. *)
Variable fs : string -> option (list byte).

(** [Path(bin_path).is_file()] *)
Definition is_file (bin_path : string) : bool :=
  match fs bin_path with Some _ => true | None => false end.

(** *** Requests to the device *)

Definition read_flash_32 (addr : Z) : M St Z :=
  fun s =>
    let (v, s') := dev_read_flash_32 ops s addr in
    (Returned v, s', [EvReadFlash addr v]).

Definition write_scratch_32 (index value : Z) : M St unit :=
  fun s =>
    (Returned tt, dev_write_scratch_32 ops s index value,
     [EvWriteScratch index value]).

(** [try: device.commit(flash_addr, device.hash_uint32)
     except TypeError: device.commit(flash_addr)] *)
Definition try_commit (flash_addr : Z) : M St Z :=
  fun s =>
    let seed := hash_uint32 ops in
    match dev_commit_seeded ops s flash_addr seed with
    | (Some c, s1) =>
        (Returned c, s1, [EvCommit flash_addr (Some seed) (Some c)])
    | (None, s1) =>
        let (c, s2) := dev_commit ops s1 flash_addr in
        (Returned c, s2,
         [EvCommit flash_addr (Some seed) None;
          EvCommit flash_addr None (Some c)])
    end.

(** [try: device.erase_all(device.hash_uint32)
     except TypeError: device.erase_all()] *)
Definition try_erase_all : M St Z :=
  fun s =>
    let seed := hash_uint32 ops in
    match dev_erase_all_seeded ops s seed with
    | (Some r, s1) => (Returned r, s1, [EvEraseAll (Some seed) (Some r)])
    | (None, s1) =>
        let (r, s2) := dev_erase_all ops s1 in
        (Returned r, s2,
         [EvEraseAll (Some seed) None; EvEraseAll None (Some r)])
    end.

Definition reset : M St unit :=
  fun s => (Returned tt, dev_reset ops s, [EvReset]).

Definition create_device : M St bool :=
  fun s =>
    let (ok, s') := dev_create ops s in
    (Returned ok, s', [EvCreateDevice ok]).

(** *** [compare_bin_w_device] *)

(** The [for i in range(BIN_CHUNK_SIZE)] loop of the comparator; [false]
    is its [return False]. *)
Fixpoint compare_words (chunk : list byte) (flash_addr : Z) (idxs : list nat)
  : M St bool :=
  match idxs with
  | [] => ret true
  | i :: idxs' =>
      let file_value := chunk_word chunk i in
      device_value <- read_flash_32 (flash_addr + Z.of_nat i * 4) ;;
      if negb (file_value =? device_value) then ret false
      else compare_words chunk flash_addr idxs'
  end.

(** The [while chunk:] loop; [bin_file] is the unread part of the file. *)
Fixpoint compare_loop (fuel : nat) (chunk bin_file : list byte)
  (flash_addr : Z) : M St bool :=
  match fuel with
  | O => out_of_fuel
  | S fuel' =>
      if nonempty chunk then
        same <- compare_words chunk flash_addr (seq 0 BIN_CHUNK_SIZE) ;;
        if same then
          let (chunk', bin_file') :=
            file_read (BIN_CHUNK_SIZE * 4) bin_file in
          let flash_addr' := flash_addr + Z.of_nat (BIN_CHUNK_SIZE * 4) in
          emit (EvProgressUpdate (Z.of_nat (BIN_CHUNK_SIZE * 4))) ;;;
          compare_loop fuel' chunk' bin_file' flash_addr'
        else ret false
      else ret true
  end.

Definition compare_bin_w_device (bin_path : string) (str : string)
  : M St bool :=
  match fs bin_path with
  | None => raise (FileNotFoundError bin_path)
  | Some content =>
      let total_size := Z.of_nat (List.length content) in
      emit (EvProgressAdd (progress_label "[green]" str) total_size) ;;;
      let (chunk, bin_file) := file_read (BIN_CHUNK_SIZE * 4) content in
      compare_loop (S (S (List.length content))) chunk bin_file FLASH_START_ADDR
  end.

(** *** [read_nvm_region] *)

Fixpoint read_nvm_words (idxs : list nat) (data : list byte)
  : M St (list byte) :=
  match idxs with
  | [] => ret data
  | i :: idxs' =>
      value <- read_flash_32 (NVM_START_ADDR + Z.of_nat i * 4) ;;
      match to_bytes 4 value with
      | None => raise OverflowError
      | Some bs =>
          emit (EvProgressUpdate 1) ;;;
          read_nvm_words idxs' (data ++ bs)
      end
  end.

Definition read_nvm_region : M St (option (list byte)) :=
  print "Backing up NVM config region..." ;;;
  let word_count := Z.to_nat (NVM_SIZE / 4) in
  emit (EvProgressAdd "[cyan]Reading NVM..." (Z.of_nat word_count)) ;;;
  data <- read_nvm_words (seq 0 word_count) [] ;;
  if all_ff data then
    print "NVM region is empty, nothing to preserve." ;;;
    ret None
  else
    print "NVM config region backed up." ;;;
    ret (Some data).

(** *** [write_nvm_region] *)

(** Loading the four words of [chunk] into the scratchpad. *)
Definition load_scratch (chunk : list byte) : M St unit :=
  for_each (seq 0 BIN_CHUNK_SIZE)
    (fun i =>
       let value := chunk_word chunk i in
       write_scratch_32 (Z.of_nat i) value ;;;
       emit EvSleep).

Definition write_nvm_chunk (data : list byte) (chunk_idx : nat) : M St unit :=
  let chunk_size := (BIN_CHUNK_SIZE * 4)%nat in
  let offset := (chunk_idx * chunk_size)%nat in
  let chunk := slice offset (offset + chunk_size) data in
  if all_ff chunk then emit (EvProgressUpdate 1)
  else
    load_scratch chunk ;;;
    let flash_addr := NVM_START_ADDR + Z.of_nat offset in
    _ <- try_commit flash_addr ;;
    emit (EvProgressUpdate 1).

Definition write_nvm_region (data : option (list byte)) : M St unit :=
  match data with
  | None => ret tt
  | Some data =>
      print "Restoring NVM config region..." ;;;
      let chunk_size := Z.of_nat (BIN_CHUNK_SIZE * 4) in
      let num_chunks := Z.to_nat (NVM_SIZE / chunk_size) in
      emit (EvProgressAdd "[cyan]Writing NVM..." (Z.of_nat num_chunks)) ;;;
      for_each (seq 0 num_chunks) (write_nvm_chunk data) ;;;
      print "NVM config region restored."
  end.

(** *** [upload_bin] *)

(** The [while chunk:] loop that programs the image. *)
Fixpoint program_loop (fuel : nat) (chunk bin_file : list byte)
  (flash_addr : Z) : M St unit :=
  match fuel with
  | O => out_of_fuel
  | S fuel' =>
      if nonempty chunk then
        load_scratch chunk ;;;
        device_checksum <- try_commit flash_addr ;;
        let local_checksum := calculate_local_checksum chunk in
        if negb (device_checksum =? local_checksum) then
          print (msg_checksum_mismatch flash_addr) ;;;
          sys_exit 1
        else
          let (chunk', bin_file') :=
            file_read (BIN_CHUNK_SIZE * 4) bin_file in
          let flash_addr' := flash_addr + Z.of_nat (BIN_CHUNK_SIZE * 4) in
          emit (EvProgressUpdate (Z.of_nat (BIN_CHUNK_SIZE * 4))) ;;;
          program_loop fuel' chunk' bin_file' flash_addr'
      else ret tt
  end.

(** The [with Progress()] block of [upload_bin]. *)
Definition program (content : list byte) : M St unit :=
  let total_size := Z.of_nat (List.length content) in
  emit (EvProgressAdd "[orange]Flashing..." total_size) ;;;
  let (chunk, bin_file) := file_read (BIN_CHUNK_SIZE * 4) content in
  program_loop (S (S (List.length content))) chunk bin_file FLASH_START_ADDR.

Definition upload_bin (bin_path : string) : M St unit :=
  match fs bin_path with
  | None => raise (FileNotFoundError bin_path)
  | Some content =>
      nvm_data <- read_nvm_region ;;
      print (nl ++ "Erasing flash...") ;;;
      result <- try_erase_all ;;
      if negb (result =? 0) then
        print (nl ++ "Error while erasing!")
      else
        print "Done." ;;;
        program content ;;;
        write_nvm_region nvm_data
  end.

(** *** [spawn] *)

(** [while True: try: create_device(...); break
     except ResponseError: pass] *)
Fixpoint recovery_loop (fuel : nat) : M St unit :=
  match fuel with
  | O => out_of_fuel
  | S fuel' =>
      ok <- create_device ;;
      if ok then print "The device is now in DFU mode."
      else recovery_loop fuel'
  end.

Definition flash_or_skip (args : arguments) (bin_path : string) : M St unit :=
  matches <-
    (if negb (arg_force args) then compare_bin_w_device bin_path "Comparing"
     else ret false) ;;
  if matches then
    print "Device firmware matches the bin file. Skipping flash."
  else
    (if negb (arg_force args) then
       print "Device firmware differs from bin file. Proceeding with flash."
     else ret tt) ;;;
    upload_bin bin_path ;;;
    _ <- compare_bin_w_device bin_path "Verifying" ;;
    if negb (arg_no_reset args) then
      print "Resetting device..." ;;;
      reset
    else ret tt.

(** [fuel] bounds the number of addressing attempts of the recovery
    loop, which has no bound of its own. *)
Definition spawn (fuel : nat) (args : arguments) : M St unit :=
  let bin_path := arg_bin args in
  (if arg_recovery args then
     emit (EvInput
       "Please power off the device and then press any key to continue...") ;;;
     print "Now power on the device." ;;;
     emit EvInitRouter ;;;
     recovery_loop fuel
   else
     emit EvInitRouter ;;;
     responded <- create_device ;;
     if negb responded then raise ResponseError
     else if negb (truthy bin_path) then
       raise (FileNotFoundError "No bin file specified!")
     else if truthy bin_path
             && negb (is_file (path_of bin_path)) then
       raise (FileNotFoundError (msg_not_found (path_of bin_path)))
     else if truthy bin_path then flash_or_skip args (path_of bin_path)
     else ret tt) ;;;
  emit EvDestroyRouter.

End Pipeline.

Arguments read_flash_32 {St} ops addr _.
Arguments write_scratch_32 {St} ops index value _.
Arguments try_commit {St} ops flash_addr _.
Arguments try_erase_all {St} ops _.
Arguments reset {St} ops _.
Arguments create_device {St} ops _.
Arguments compare_words {St} ops chunk flash_addr idxs _.
Arguments compare_loop {St} ops fuel chunk bin_file flash_addr _.
Arguments compare_bin_w_device {St} ops fs bin_path str _.
Arguments read_nvm_words {St} ops idxs data _.
Arguments read_nvm_region {St} ops _.
Arguments load_scratch {St} ops chunk _.
Arguments write_nvm_chunk {St} ops data chunk_idx _.
Arguments write_nvm_region {St} ops data _.
Arguments program_loop {St} ops fuel chunk bin_file flash_addr _.
Arguments program {St} ops content _.
Arguments upload_bin {St} ops fs bin_path _.
Arguments recovery_loop {St} ops fuel _.
Arguments flash_or_skip {St} ops fs args bin_path _.
Arguments spawn {St} ops fs fuel args _.

(** ** A simulated device

    A flash memory of 32-bit words addressed by byte address, four scratch
    registers, and switches for the behaviours the pipeline has to cope
    with: a device that only knows the unseeded protocol, an erase that
    fails, a commit that reports a wrong checksum, a commit that stores a
    wrong word, and a device that stays silent for some addressing
    attempts. *)

Module Sim.

Record state : Type := {
  flash : Z -> Z;
  scratch : Z -> Z;
  silent : nat
}.

Record config : Type := {
  supports_seed : bool;
  erase_status : Z;
  bad_checksum_at : Z -> bool;
  corrupt_at : Z -> bool
}.

Definition blank : Z := 0xFFFFFFFF.

Definition upd (f : Z -> Z) (k v : Z) : Z -> Z :=
  fun k' => if k' =? k then v else f k'.

Definition do_read (s : state) (addr : Z) : Z * state := (flash s addr, s).

Definition do_write_scratch (s : state) (index value : Z) : state :=
  {| flash := flash s; scratch := upd (scratch s) index value;
     silent := silent s |}.

Definition do_commit (cfg : config) (s : state) (addr : Z) : Z * state :=
  let w0 := scratch s 0 in
  let w1 := scratch s 1 in
  let w2 := scratch s 2 in
  let w3 := scratch s 3 in
  let stored0 := if corrupt_at cfg addr then Z.lxor w0 1 else w0 in
  let fl :=
    upd (upd (upd (upd (flash s) addr stored0) (addr + 4) w1)
           (addr + 8) w2) (addr + 12) w3 in
  let sum := Z.land (w0 + w1 + w2 + w3) 0xFFFFFFFF in
  let reported :=
    if bad_checksum_at cfg addr then Z.land (sum + 1) 0xFFFFFFFF
    else sum in
  (reported, {| flash := fl; scratch := scratch s; silent := silent s |}).

Definition do_erase (cfg : config) (s : state) : Z * state :=
  if erase_status cfg =? 0 then
    (0, {| flash := fun _ => blank; scratch := scratch s;
           silent := silent s |})
  else (erase_status cfg, s).

Definition do_create (s : state) : bool * state :=
  match silent s with
  | O => (true, s)
  | S n =>
      (false, {| flash := flash s; scratch := scratch s; silent := n |})
  end.

Definition ops (cfg : config) : DeviceOps state := {|
  hash_uint32 := 0x1234ABCD;
  dev_read_flash_32 := do_read;
  dev_write_scratch_32 := do_write_scratch;
  dev_commit_seeded := fun s addr _ =>
    if supports_seed cfg then
      let (c, s') := do_commit cfg s addr in (Some c, s')
    else (None, s);
  dev_commit := do_commit cfg;
  dev_erase_all_seeded := fun s _ =>
    if supports_seed cfg then
      let (r, s') := do_erase cfg s in (Some r, s')
    else (None, s);
  dev_erase_all := do_erase cfg;
  dev_reset := fun s => s;
  dev_create := do_create
|}.

(** A well-behaved device speaking the seeded protocol. *)
Definition good : config := {|
  supports_seed := true;
  erase_status := 0;
  bad_checksum_at := fun _ => false;
  corrupt_at := fun _ => false
|}.

(** A device whose flash is in its erased state. *)
Definition blank_device : state := {|
  flash := fun _ => blank;
  scratch := fun _ => 0;
  silent := O
|}.

(** A file system with the single file [fw.bin]. *)
Definition one_file (content : list byte) : string -> option (list byte) :=
  fun p => if String.eqb p "fw.bin" then Some content else None.

Definition args_bin (force no_reset : bool) : arguments := {|
  arg_bin := Some "fw.bin"%string;
  arg_recovery := false;
  arg_no_reset := no_reset;
  arg_force := force
|}.

End Sim.

(** ** Where the chunks and words of an image are *)

(** The [j]-th result of [bin_file.read(16)] on a file holding [content]. *)
Definition nth_chunk (content : list byte) (j : nat) : list byte :=
  firstn (BIN_CHUNK_SIZE * 4) (skipn (BIN_CHUNK_SIZE * 4 * j) content).

(** What is left unread after the [j]-th read. *)
Definition unread_after (content : list byte) (j : nat) : list byte :=
  skipn (BIN_CHUNK_SIZE * 4 * S j) content.

(** Number of non-empty reads: the length divided by 16, rounded up. *)
Definition num_chunks (content : list byte) : nat :=
  ((List.length content + 15) / 16)%nat.

(** Flash address of chunk [j] and of word [k] of the image. *)
Definition chunk_addr (j : nat) : Z := FLASH_START_ADDR + 16 * Z.of_nat j.
Definition word_addr (k : nat) : Z := FLASH_START_ADDR + 4 * Z.of_nat k.

(** Word [k] of the image as Python slicing gives it: bytes past the end
    of the file are missing from the slice and so count as zero. *)
Definition image_word (content : list byte) (k : nat) : Z :=
  int_from_bytes (slice (k * 4) ((k + 1) * 4) content).

(** The chunk of the image that is programmed at [flash_addr]. *)
Definition chunk_at (content : list byte) (flash_addr : Z) : list byte :=
  firstn (BIN_CHUNK_SIZE * 4)
    (skipn (Z.to_nat (flash_addr - FLASH_START_ADDR)) content).

(** The image with its last chunk filled up with zero bytes. *)
Definition pad16 (content : list byte) : list byte :=
  content ++ repeat x00 (num_chunks content * 16 - List.length content).

(** ** Classes of events *)

(** Requests that change flash or the scratchpad. *)
Definition is_write (e : event) : bool :=
  match e with
  | EvWriteScratch _ _ | EvCommit _ _ _ | EvEraseAll _ _ => true
  | _ => false
  end.

(** Any request addressed to the device. *)
Definition is_device (e : event) : bool :=
  match e with
  | EvCreateDevice _ | EvReadFlash _ _ | EvWriteScratch _ _
  | EvCommit _ _ _ | EvEraseAll _ _ | EvReset => true
  | _ => false
  end.

(** A request on flash content or the scratchpad, or a reset. *)
Definition is_flash_request (e : event) : bool :=
  match e with
  | EvReadFlash _ _ | EvWriteScratch _ _
  | EvCommit _ _ _ | EvEraseAll _ _ | EvReset => true
  | _ => false
  end.

Definition is_commit (e : event) : bool :=
  match e with
  | EvCommit _ _ _ => true
  | _ => false
  end.

(** A seeded call that raised [TypeError]. *)
Definition is_rejected_seeded (e : event) : bool :=
  match e with
  | EvCommit _ (Some _) None | EvEraseAll (Some _) None => true
  | _ => false
  end.

(** A call in the unseeded form. *)
Definition is_unseeded (e : event) : bool :=
  match e with
  | EvCommit _ None _ | EvEraseAll None _ => true
  | _ => false
  end.

(** A call in the seeded form, accepted or not. *)
Definition is_seeded (e : event) : bool :=
  match e with
  | EvCommit _ (Some _) _ | EvEraseAll (Some _) _ => true
  | _ => false
  end.

(** A commit or erase that the device carried out. *)
Definition is_answered (e : event) : bool :=
  match e with
  | EvCommit _ _ (Some _) | EvEraseAll _ (Some _) => true
  | _ => false
  end.

Definition is_restore_banner (e : event) : bool :=
  match e with
  | EvPrint msg => String.eqb msg "Restoring NVM config region..."
  | _ => false
  end.

Definition printed (evs : list event) : list string :=
  flat_map (fun e => match e with EvPrint m => [m] | _ => [] end) evs.

Definition device_events (evs : list event) : list event :=
  filter is_device evs.

Definition count (p : event -> bool) (evs : list event) : nat :=
  List.length (filter p evs).

(** ** Basic facts *)

Lemma nonempty_length {A : Type} (l : list A) :
  nonempty l = true <-> (0 < List.length l)%nat.
Proof.
  destruct l; simpl; split; intros H; try lia; try discriminate; reflexivity.
Qed.

Lemma nonempty_false {A : Type} (l : list A) :
  nonempty l = false <-> l = [].
Proof.
  destruct l; simpl; split; intros H; congruence.
Qed.

Lemma length_nth_chunk content j :
  List.length (nth_chunk content j)
  = Nat.min 16 (List.length content - 16 * j).
Proof.
  unfold nth_chunk, BIN_CHUNK_SIZE.
  rewrite length_firstn, length_skipn. reflexivity.
Qed.

Lemma num_chunks_spec content j :
  (j < num_chunks content)%nat <-> (16 * j < List.length content)%nat.
Proof.
  unfold num_chunks.
  pose proof (Nat.div_mod_eq (List.length content + 15) 16) as E.
  pose proof (Nat.mod_upper_bound (List.length content + 15) 16) as B.
  split; intros H; lia.
Qed.

Lemma nonempty_nth_chunk content j :
  nonempty (nth_chunk content j) = true <-> (j < num_chunks content)%nat.
Proof.
  rewrite nonempty_length, length_nth_chunk, num_chunks_spec. lia.
Qed.

Lemma file_read_unread content j :
  file_read (BIN_CHUNK_SIZE * 4) (unread_after content j)
  = (nth_chunk content (S j), unread_after content (S j)).
Proof.
  unfold file_read, unread_after, nth_chunk. f_equal.
  rewrite skipn_skipn. f_equal. unfold BIN_CHUNK_SIZE. lia.
Qed.

Lemma file_read_start content :
  file_read (BIN_CHUNK_SIZE * 4) content
  = (nth_chunk content 0, unread_after content 0).
Proof.
  unfold file_read, unread_after, nth_chunk. reflexivity.
Qed.

Lemma chunk_addr_next j :
  chunk_addr j + Z.of_nat (BIN_CHUNK_SIZE * 4) = chunk_addr (S j).
Proof. unfold chunk_addr, BIN_CHUNK_SIZE. lia. Qed.

Lemma chunk_at_addr content j :
  chunk_at content (chunk_addr j) = nth_chunk content j.
Proof.
  unfold chunk_at, nth_chunk, chunk_addr, BIN_CHUNK_SIZE.
  do 2 f_equal. lia.
Qed.

Lemma slice_firstn_skipn {A : Type} (l : list A) (a i : nat) :
  (i < 4)%nat ->
  slice (i * 4) ((i + 1) * 4) (firstn 16 (skipn a l))
  = slice (a + i * 4) (a + (i + 1) * 4) l.
Proof.
  intros Hi. unfold slice.
  replace ((i + 1) * 4 - i * 4)%nat with 4%nat by lia.
  replace (a + (i + 1) * 4 - (a + i * 4))%nat with 4%nat by lia.
  rewrite skipn_firstn_comm, firstn_firstn, skipn_skipn.
  f_equal; [lia | f_equal; lia].
Qed.

Lemma chunk_word_nth_chunk content j i :
  (i < 4)%nat ->
  chunk_word (nth_chunk content j) i = image_word content (4 * j + i).
Proof.
  intros Hi. unfold chunk_word, image_word, nth_chunk, BIN_CHUNK_SIZE.
  change (4 * 4)%nat with 16%nat.
  rewrite slice_firstn_skipn by assumption.
  f_equal. f_equal; lia.
Qed.

(** ** Running the monad *)

Lemma bind_returned {St A B : Type} (m : M St A) (k : A -> M St B) s a s1 e1 :
  m s = (Returned a, s1, e1) ->
  bind m k s = (let '(r, s2, e2) := k a s1 in (r, s2, e1 ++ e2)).
Proof. intros E. unfold bind. rewrite E. reflexivity. Qed.

Lemma bind_exited {St A B : Type} (m : M St A) (k : A -> M St B) s c s1 e1 :
  m s = (Exited c, s1, e1) -> bind m k s = (Exited c, s1, e1).
Proof. intros E. unfold bind. rewrite E. reflexivity. Qed.

Lemma bind_raised {St A B : Type} (m : M St A) (k : A -> M St B) s x s1 e1 :
  m s = (Raised x, s1, e1) -> bind m k s = (Raised x, s1, e1).
Proof. intros E. unfold bind. rewrite E. reflexivity. Qed.

Lemma bind_emit {St B : Type} (e : event) (k : unit -> M St B) s :
  bind (emit e) k s = (let '(r, s2, e2) := k tt s in (r, s2, e :: e2)).
Proof. reflexivity. Qed.

Lemma bind_print {St B : Type} (msg : string) (k : unit -> M St B) s :
  bind (print msg) k s
  = (let '(r, s2, e2) := k tt s in (r, s2, EvPrint msg :: e2)).
Proof. reflexivity. Qed.

Lemma bind_ret {St A B : Type} (a : A) (k : A -> M St B) s :
  bind (ret a) k s = k a s.
Proof. unfold bind, ret. destruct (k a s) as [[r s2] e2]. reflexivity. Qed.

(** A commit whose answer agrees with the local checksum of the chunk that
    belongs at its address; every other event passes. *)
Definition commit_ok (content : list byte) (e : event) : Prop :=
  match e with
  | EvCommit a _ (Some c) => c = calculate_local_checksum (chunk_at content a)
  | _ => True
  end.

(** Splits a [Forall] goal along the appends and conses of its list. *)
Ltac forall_app :=
  repeat match goal with
         | H : Forall _ (_ ++ _) |- _ => apply Forall_app in H; destruct H
         | |- Forall _ (_ ++ _) => apply Forall_app; split
         | |- Forall _ (_ :: _) => apply Forall_cons
         | |- Forall _ [] => apply Forall_nil
         end;
  try assumption; try exact I; try reflexivity.

Section Facts.

Variable St : Type.
Variable ops : DeviceOps St.

(** The state after the four scratch writes of [load_scratch]. *)
Definition scratch_loaded (chunk : list byte) (s : St) : St :=
  fold_left
    (fun s i => dev_write_scratch_32 ops s (Z.of_nat i) (chunk_word chunk i))
    (seq 0 BIN_CHUNK_SIZE) s.

Definition scratch_events (chunk : list byte) : list event :=
  flat_map (fun i => [EvWriteScratch (Z.of_nat i) (chunk_word chunk i);
                      EvSleep])
    (seq 0 BIN_CHUNK_SIZE).

Lemma load_scratch_run chunk s :
  load_scratch ops chunk s
  = (Returned tt, scratch_loaded chunk s, scratch_events chunk).
Proof. reflexivity. Qed.

Lemma scratch_events_no_commit chunk :
  Forall (fun e => is_commit e = false) (scratch_events chunk).
Proof. repeat constructor. Qed.

(** The two shapes a commit can take. *)
Lemma try_commit_run a s :
  exists c s' pre sd,
    try_commit ops a s = (Returned c, s', pre ++ [EvCommit a sd (Some c)])
    /\ (pre = [] \/ pre = [EvCommit a (Some (hash_uint32 ops)) None]).
Proof.
  unfold try_commit.
  destruct (dev_commit_seeded ops s a (hash_uint32 ops)) as [[c|] s1].
  - exists c, s1, [], (Some (hash_uint32 ops)). split; [reflexivity | now left].
  - destruct (dev_commit ops s1 a) as [c s2].
    exists c, s2, [EvCommit a (Some (hash_uint32 ops)) None], None.
    split; [reflexivity | now right].
Qed.

Lemma program_loop_S fuel chunk bin_file flash_addr :
  program_loop ops (S fuel) chunk bin_file flash_addr
  = if nonempty chunk then
      load_scratch ops chunk ;;;
      device_checksum <- try_commit ops flash_addr ;;
      let local_checksum := calculate_local_checksum chunk in
      if negb (device_checksum =? local_checksum) then
        print (msg_checksum_mismatch flash_addr) ;;;
        sys_exit 1
      else
        let (chunk', bin_file') :=
          file_read (BIN_CHUNK_SIZE * 4) bin_file in
        let flash_addr' := flash_addr + Z.of_nat (BIN_CHUNK_SIZE * 4) in
        emit (EvProgressUpdate (Z.of_nat (BIN_CHUNK_SIZE * 4))) ;;;
        program_loop ops fuel chunk' bin_file' flash_addr'
    else ret tt.
Proof. reflexivity. Qed.

(** How the programming loop can end: normally, with every commit
    answered by the right checksum; or by [sys.exit(1)] right after the
    first commit answered by a wrong one. *)
Lemma program_loop_run content :
  forall n j fuel s r s' evs,
    n = (num_chunks content - j)%nat ->
    (n + 1 <= fuel)%nat ->
    program_loop ops fuel (nth_chunk content j) (unread_after content j)
      (chunk_addr j) s = (r, s', evs) ->
    (r = Returned tt /\ Forall (commit_ok content) evs)
    \/ (exists good a sd c,
          r = Exited 1
          /\ evs = good ++ [EvCommit a sd (Some c);
                            EvPrint (msg_checksum_mismatch a)]
          /\ Forall (commit_ok content) good
          /\ c <> calculate_local_checksum (chunk_at content a)).
Proof.
  induction n as [|n IH]; intros j fuel s r s' evs Hn Hfuel Hrun.
  - destruct fuel as [|fuel]; [lia|].
    rewrite program_loop_S in Hrun.
    assert (Hne : nonempty (nth_chunk content j) = false).
    { destruct (nonempty (nth_chunk content j)) eqn:E; [|reflexivity].
      apply nonempty_nth_chunk in E. lia. }
    rewrite Hne in Hrun. inversion Hrun; subst. left. split; constructor.
  - destruct fuel as [|fuel]; [lia|].
    rewrite program_loop_S in Hrun.
    assert (Hne : nonempty (nth_chunk content j) = true).
    { apply nonempty_nth_chunk. lia. }
    rewrite Hne in Hrun.
    rewrite (bind_returned _ _ _ _ _ _ (load_scratch_run _ s)) in Hrun.
    destruct (try_commit_run (chunk_addr j) (scratch_loaded (nth_chunk content j) s))
      as (c & s1 & pre & sd & Hc & Hpre).
    rewrite (bind_returned _ _ _ _ _ _ Hc) in Hrun.
    cbv zeta in Hrun.
    assert (Hgood : Forall (commit_ok content)
                      (scratch_events (nth_chunk content j) ++ pre)).
    { apply Forall_app. split.
      - eapply Forall_impl; [|apply scratch_events_no_commit].
        intros [] H; simpl in *; try exact I; discriminate.
      - destruct Hpre as [-> | ->]; repeat constructor. }
    destruct (c =? calculate_local_checksum (nth_chunk content j)) eqn:Ec;
      cbn [negb] in Hrun.
    + apply Z.eqb_eq in Ec. subst c.
      rewrite file_read_unread in Hrun. cbv beta iota zeta in Hrun.
      rewrite chunk_addr_next in Hrun. rewrite bind_emit in Hrun.
      destruct (program_loop ops fuel (nth_chunk content (S j))
                  (unread_after content (S j)) (chunk_addr (S j)) s1)
        as [[r2 s2] e2] eqn:E2.
      injection Hrun as <- <- <-.
      assert (Hok : commit_ok content
                      (EvCommit (chunk_addr j) sd
                         (Some (calculate_local_checksum
                                  (nth_chunk content j))))).
      { simpl. now rewrite chunk_at_addr. }
      apply IH in E2; [|lia|lia].
      destruct E2 as [[-> Hall] | (good & a & sd' & c' & -> & -> & Hall & Hbad)].
      * left. split; [reflexivity|]. forall_app.
      * right.
        exists (scratch_events (nth_chunk content j) ++
                (pre ++ [EvCommit (chunk_addr j) sd
                           (Some (calculate_local_checksum
                                    (nth_chunk content j)))])
                ++ EvProgressUpdate (Z.of_nat (BIN_CHUNK_SIZE * 4)) :: good),
               a, sd', c'.
        split; [reflexivity|]. split.
        { rewrite <- !app_assoc. reflexivity. }
        split; [|assumption]. forall_app.
    + apply Z.eqb_neq in Ec.
      rewrite bind_print in Hrun. unfold sys_exit in Hrun.
      injection Hrun as <- <- <-.
      right. exists (scratch_events (nth_chunk content j) ++ pre),
               (chunk_addr j), sd, c.
      split; [reflexivity|]. split.
      { rewrite <- !app_assoc. reflexivity. }
      split; [assumption|]. now rewrite chunk_at_addr.
Qed.

End Facts.

(** ** Events of each phase *)

(** Events of the comparator: flash reads and progress reports. *)
Definition is_scan (e : event) : bool :=
  match e with
  | EvReadFlash _ _ | EvProgressAdd _ _ | EvProgressUpdate _ => true
  | _ => false
  end.

(** Events that leave the device as it is: reads, progress and messages. *)
Definition observes (e : event) : bool :=
  match e with
  | EvReadFlash _ _ | EvProgressAdd _ _ | EvProgressUpdate _
  | EvPrint _ => true
  | _ => false
  end.

Lemma is_scan_observes e : is_scan e = true -> observes e = true.
Proof. destruct e; simpl; congruence. Qed.

Lemma observes_not_write e : observes e = true -> is_write e = false.
Proof. destruct e; simpl; congruence. Qed.

Lemma not_write_not_commit e : is_write e = false -> is_commit e = false.
Proof. destruct e; simpl; congruence. Qed.

Lemma Forall_scan_observes evs :
  Forall (fun e => is_scan e = true) evs ->
  Forall (fun e => observes e = true) evs.
Proof. apply Forall_impl. exact is_scan_observes. Qed.

Lemma Forall_observes_not_write evs :
  Forall (fun e => observes e = true) evs ->
  Forall (fun e => is_write e = false) evs.
Proof. apply Forall_impl. exact observes_not_write. Qed.

Lemma Forall_not_write_not_commit evs :
  Forall (fun e => is_write e = false) evs ->
  Forall (fun e => is_commit e = false) evs.
Proof. apply Forall_impl. exact not_write_not_commit. Qed.

(** An element that fails [P] lies beyond a prefix that satisfies it. *)
Lemma split_past {A : Type} (P : A -> Prop) (l1 l2 pre post : list A) x :
  Forall P l1 -> ~ P x ->
  l1 ++ l2 = pre ++ x :: post ->
  exists pre', pre = l1 ++ pre' /\ l2 = pre' ++ x :: post.
Proof.
  revert pre. induction l1 as [|y l1 IH]; intros pre Hall Hx E.
  - exists pre. split; [reflexivity | exact E].
  - inversion Hall as [|? ? Hy Hall']; subst.
    destruct pre as [|z pre]; simpl in E; injection E as -> E.
    + contradiction.
    + destruct (IH pre Hall' Hx E) as (pre' & -> & ->).
      exists pre'. split; reflexivity.
Qed.

Section PhaseEvents.

Variable St : Type.
Variable ops : DeviceOps St.
Variable fs : string -> option (list byte).

Lemma read_flash_32_run a s :
  read_flash_32 ops a s
  = (Returned (fst (dev_read_flash_32 ops s a)),
     snd (dev_read_flash_32 ops s a),
     [EvReadFlash a (fst (dev_read_flash_32 ops s a))]).
Proof.
  unfold read_flash_32. destruct (dev_read_flash_32 ops s a). reflexivity.
Qed.

Lemma compare_words_events chunk a idxs :
  forall s r s' evs,
    compare_words ops chunk a idxs s = (r, s', evs) ->
    Forall (fun e => is_scan e = true) evs /\ exists b, r = Returned b.
Proof.
  induction idxs as [|i idxs IH]; intros s r s' evs Hrun; simpl in Hrun.
  - injection Hrun as <- <- <-. split; [constructor | eauto].
  - rewrite (bind_returned _ _ _ _ _ _ (read_flash_32_run _ s)) in Hrun.
    destruct (negb _) in Hrun.
    + injection Hrun as <- <- <-. split; [repeat constructor | eauto].
    + destruct (compare_words ops chunk a idxs _) as [[r2 s2] e2] eqn:E2.
      injection Hrun as <- <- <-.
      apply IH in E2 as [H1 H2]. split; [|assumption].
      constructor; [reflexivity | assumption].
Qed.

Lemma compare_loop_S fuel chunk bin_file flash_addr :
  compare_loop ops (S fuel) chunk bin_file flash_addr
  = if nonempty chunk then
      same <- compare_words ops chunk flash_addr (seq 0 BIN_CHUNK_SIZE) ;;
      if same then
        let (chunk', bin_file') :=
          file_read (BIN_CHUNK_SIZE * 4) bin_file in
        let flash_addr' := flash_addr + Z.of_nat (BIN_CHUNK_SIZE * 4) in
        emit (EvProgressUpdate (Z.of_nat (BIN_CHUNK_SIZE * 4))) ;;;
        compare_loop ops fuel chunk' bin_file' flash_addr'
      else ret false
    else ret true.
Proof. reflexivity. Qed.

Lemma compare_loop_events :
  forall fuel chunk bin_file a s r s' evs,
    compare_loop ops fuel chunk bin_file a s = (r, s', evs) ->
    Forall (fun e => is_scan e = true) evs.
Proof.
  induction fuel as [|fuel IH]; intros chunk bin_file a s r s' evs Hrun.
  - injection Hrun as <- <- <-. constructor.
  - rewrite compare_loop_S in Hrun.
    destruct (nonempty chunk).
    + destruct (compare_words ops chunk a (seq 0 BIN_CHUNK_SIZE) s)
        as [[r1 s1] e1] eqn:E1.
      destruct (compare_words_events _ _ _ _ _ _ _ E1) as [H1 [b ->]].
      rewrite (bind_returned _ _ _ _ _ _ E1) in Hrun.
      destruct b.
      * destruct (file_read (BIN_CHUNK_SIZE * 4) bin_file) as [c' f'].
        cbv zeta in Hrun. rewrite bind_emit in Hrun.
        destruct (compare_loop ops fuel c' f' _ s1) as [[r2 s2] e2] eqn:E2.
        injection Hrun as <- <- <-. apply IH in E2. forall_app.
      * injection Hrun as <- <- <-. rewrite app_nil_r. assumption.
    + injection Hrun as <- <- <-. constructor.
Qed.

Lemma compare_bin_w_device_events bin_path str s r s' evs :
  compare_bin_w_device ops fs bin_path str s = (r, s', evs) ->
  Forall (fun e => is_scan e = true) evs.
Proof.
  unfold compare_bin_w_device. destruct (fs bin_path) as [content|].
  - rewrite bind_emit.
    destruct (file_read (BIN_CHUNK_SIZE * 4) content) as [c f].
    destruct (compare_loop ops _ c f FLASH_START_ADDR s)
      as [[r2 s2] e2] eqn:E2.
    intros H. injection H as <- <- <-.
    apply compare_loop_events in E2. forall_app.
  - intros H. injection H as <- <- <-. constructor.
Qed.

Lemma read_nvm_words_events idxs :
  forall data s r s' evs,
    read_nvm_words ops idxs data s = (r, s', evs) ->
    Forall (fun e => is_scan e = true) evs.
Proof.
  induction idxs as [|i idxs IH]; intros data s r s' evs Hrun;
    simpl in Hrun.
  - injection Hrun as <- <- <-. constructor.
  - rewrite (bind_returned _ _ _ _ _ _ (read_flash_32_run _ s)) in Hrun.
    destruct (to_bytes 4 _) as [bs|].
    + rewrite bind_emit in Hrun.
      destruct (read_nvm_words ops idxs (data ++ bs) _)
        as [[r2 s2] e2] eqn:E2.
      injection Hrun as <- <- <-. apply IH in E2. forall_app.
    + injection Hrun as <- <- <-. repeat constructor.
Qed.

Lemma read_nvm_region_events s r s' evs :
  read_nvm_region ops s = (r, s', evs) ->
  Forall (fun e => observes e = true) evs.
Proof.
  unfold read_nvm_region. cbv zeta.
  generalize (seq 0 (Z.to_nat (NVM_SIZE / 4))) as idxs.
  generalize (Z.of_nat (Z.to_nat (NVM_SIZE / 4))) as total.
  intros total idxs. rewrite bind_print, bind_emit.
  destruct (read_nvm_words ops idxs [] s) as [[r1 s1] e1] eqn:E1.
  pose proof (Forall_scan_observes _ (read_nvm_words_events _ _ _ _ _ _ E1))
    as H1.
  destruct r1 as [data| | |].
  - rewrite (bind_returned _ _ _ _ _ _ E1).
    destruct (all_ff data); rewrite bind_print; unfold ret;
      intros H; injection H as <- <- <-; forall_app.
  - rewrite (bind_exited _ _ _ _ _ _ E1).
    intros H; injection H as <- <- <-; forall_app.
  - rewrite (bind_raised _ _ _ _ _ _ E1).
    intros H; injection H as <- <- <-; forall_app.
  - unfold bind. rewrite E1.
    intros H; injection H as <- <- <-; forall_app.
Qed.

End PhaseEvents.

(** ** The shape of a run with respect to commit checksums *)

Definition restore_banner : event :=
  EvPrint "Restoring NVM config region...".

(** A run's events are a stretch in which every commit was answered by the
    right checksum, followed by nothing, or by the NVM restore (which opens
    with its banner), or by exactly one wrongly answered commit, the
    mismatch message and [sys.exit(1)]. *)
Definition checked_run (content : list byte) (r : result unit)
  (evs : list event) : Prop :=
  exists e_ok e_end,
    evs = e_ok ++ e_end
    /\ Forall (commit_ok content) e_ok
    /\ (e_end = []
        \/ (exists t, e_end = restore_banner :: t)
        \/ (exists a sd c,
              r = Exited 1
              /\ e_end = [EvCommit a sd (Some c);
                          EvPrint (msg_checksum_mismatch a)]
              /\ c <> calculate_local_checksum (chunk_at content a))).

Lemma no_commit_ok content evs :
  Forall (fun e => is_commit e = false) evs -> Forall (commit_ok content) evs.
Proof.
  apply Forall_impl. intros [] H; simpl in *; try exact I; discriminate.
Qed.

Lemma scan_ok content evs :
  Forall (fun e => is_scan e = true) evs -> Forall (commit_ok content) evs.
Proof.
  apply Forall_impl. intros [] H; simpl in *; try exact I; discriminate.
Qed.

Lemma observes_ok content evs :
  Forall (fun e => observes e = true) evs -> Forall (commit_ok content) evs.
Proof.
  apply Forall_impl. intros [] H; simpl in *; try exact I; discriminate.
Qed.

Lemma checked_ok content r evs :
  Forall (commit_ok content) evs -> checked_run content r evs.
Proof.
  intros H. exists evs, []. rewrite app_nil_r. auto.
Qed.

Lemma checked_prefix content r e1 e2 :
  Forall (commit_ok content) e1 ->
  checked_run content r e2 -> checked_run content r (e1 ++ e2).
Proof.
  intros H1 (e_ok & e_end & -> & Hok & Hend).
  exists (e1 ++ e_ok), e_end. rewrite app_assoc. split; [reflexivity|].
  split; [forall_app | assumption].
Qed.

Lemma checked_cons content r e evs :
  commit_ok content e ->
  checked_run content r evs -> checked_run content r (e :: evs).
Proof.
  intros He H. apply (checked_prefix content r [e] evs); [forall_app | exact H].
Qed.

(** After a run that returned normally, more checked events may follow,
    whatever the final outcome. *)
Lemma checked_suffix content r a e1 e2 :
  checked_run content (Returned a) e1 ->
  Forall (commit_ok content) e2 ->
  checked_run content r (e1 ++ e2).
Proof.
  intros (e_ok & e_end & -> & Hok & Hend) H2.
  destruct Hend as [-> | [[t ->] | (a' & sd & c & Hr & _)]].
  - apply checked_ok. rewrite app_nil_r. forall_app.
  - exists e_ok, (restore_banner :: t ++ e2).
    rewrite <- app_assoc. split; [reflexivity|]. split; [assumption|].
    right; left. eauto.
  - discriminate.
Qed.

(** A run that did not end by [sys.exit] keeps its shape under any other
    outcome that is not an exit either. *)
Lemma checked_outcome content r r' evs :
  checked_run content r evs ->
  (forall c, r <> Exited c) ->
  checked_run content r' evs.
Proof.
  intros (e_ok & e_end & -> & Hok & Hend) Hr.
  exists e_ok, e_end. split; [reflexivity|]. split; [assumption|].
  destruct Hend as [-> | [[t ->] | (a' & sd & c & Hx & _)]]; eauto.
  exfalso. eapply Hr. eassumption.
Qed.

Lemma num_chunks_le content : (num_chunks content <= List.length content)%nat.
Proof.
  unfold num_chunks.
  pose proof (Nat.div_mod_eq (List.length content + 15) 16).
  pose proof (Nat.mod_upper_bound (List.length content + 15) 16).
  destruct (List.length content); [reflexivity | lia].
Qed.

Section CheckedRuns.

Variable St : Type.
Variable ops : DeviceOps St.
Variable fs : string -> option (list byte).

Lemma program_run content s r s' evs :
  program ops content s = (r, s', evs) ->
  (r = Returned tt /\ Forall (commit_ok content) evs)
  \/ (exists good a sd c,
        r = Exited 1
        /\ evs = good ++ [EvCommit a sd (Some c);
                          EvPrint (msg_checksum_mismatch a)]
        /\ Forall (commit_ok content) good
        /\ c <> calculate_local_checksum (chunk_at content a)).
Proof.
  unfold program. cbv zeta. rewrite bind_emit, file_read_start.
  change FLASH_START_ADDR with (chunk_addr 0).
  destruct (program_loop ops _ _ _ _ s) as [[r2 s2] e2] eqn:E2.
  intros H. injection H as <- <- <-.
  apply (program_loop_run _ ops content (num_chunks content - 0)) in E2;
    [| reflexivity | pose proof (num_chunks_le content); lia].
  destruct E2 as [[-> Hall] | (good & a & sd & c & -> & -> & Hall & Hbad)].
  - left. split; [reflexivity | forall_app].
  - right. exists (EvProgressAdd "[orange]Flashing..."
                     (Z.of_nat (List.length content)) :: good), a, sd, c.
    repeat split; try assumption. forall_app.
Qed.

Lemma program_checked content s r s' evs :
  program ops content s = (r, s', evs) -> checked_run content r evs.
Proof.
  intros H. apply program_run in H.
  destruct H as [[-> Hall] | (good & a & sd & c & -> & -> & Hall & Hbad)].
  - now apply checked_ok.
  - exists good, [EvCommit a sd (Some c); EvPrint (msg_checksum_mismatch a)].
    split; [reflexivity|]. split; [assumption|]. right; right.
    exists a, sd, c. auto.
Qed.

Lemma try_erase_all_run s :
  exists status s' evs,
    try_erase_all ops s = (Returned status, s', evs)
    /\ Forall (fun e => is_commit e = false) evs.
Proof.
  unfold try_erase_all.
  destruct (dev_erase_all_seeded ops s (hash_uint32 ops)) as [[c|] s1].
  - do 3 eexists. split; [reflexivity | repeat constructor].
  - destruct (dev_erase_all ops s1) as [c s2].
    do 3 eexists. split; [reflexivity | repeat constructor].
Qed.

Lemma write_nvm_region_banner data s r s' evs :
  write_nvm_region ops data s = (r, s', evs) ->
  evs = [] \/ exists t, evs = restore_banner :: t.
Proof.
  unfold write_nvm_region. destruct data as [data|].
  - cbv zeta. rewrite bind_print.
    match goal with
    | |- context [bind ?m ?k s] => destruct (bind m k s) as [[r2 s2] e2]
    end.
    intros H. injection H as <- <- <-. right. eauto.
  - intros H. injection H as <- <- <-. now left.
Qed.

Lemma upload_bin_checked bin_path content s r s' evs :
  fs bin_path = Some content ->
  upload_bin ops fs bin_path s = (r, s', evs) ->
  checked_run content r evs.
Proof.
  intros Hfs. unfold upload_bin. rewrite Hfs.
  destruct (read_nvm_region ops s) as [[r1 s1] e1] eqn:E1.
  pose proof (observes_ok content _ (read_nvm_region_events _ _ _ _ _ _ E1))
    as H1.
  destruct r1 as [nvm| c | x |].
  2: { rewrite (bind_exited _ _ _ _ _ _ E1). intros H.
       injection H as <- <- <-.
       exists e1, []. rewrite app_nil_r. auto. }
  2: { rewrite (bind_raised _ _ _ _ _ _ E1). intros H.
       injection H as <- <- <-. now apply checked_ok. }
  2: { unfold bind. rewrite E1. intros H.
       injection H as <- <- <-. now apply checked_ok. }
  rewrite (bind_returned _ _ _ _ _ _ E1), bind_print.
  destruct (try_erase_all_run s1) as (status & s2 & e2 & E2 & H2).
  apply (no_commit_ok content) in H2.
  rewrite (bind_returned _ _ _ _ _ _ E2).
  destruct (negb (status =? 0)).
  - unfold print, emit. intros H. injection H as <- <- <-.
    apply checked_ok. forall_app.
  - rewrite bind_print.
    destruct (program ops content s2) as [[r3 s3] e3] eqn:E3.
    pose proof (program_checked _ _ _ _ _ E3) as H3.
    destruct r3 as [[]| c | x |].
    + rewrite (bind_returned _ _ _ _ _ _ E3).
      destruct (write_nvm_region ops nvm s3) as [[r4 s4] e4] eqn:E4.
      intros H. injection H as <- <- <-.
      apply checked_prefix; [assumption|].
      apply checked_cons; [exact I|].
      apply checked_prefix; [assumption|].
      apply checked_cons; [exact I|].
      destruct H3 as (e_ok & e_end & -> & Hok & Hend).
      destruct Hend as [-> | [[t ->] | (a' & sd & c & Hx & _)]];
        [| | discriminate].
      * rewrite app_nil_r.
        apply write_nvm_region_banner in E4 as [-> | [t ->]].
        -- apply checked_ok. now rewrite app_nil_r.
        -- exists e_ok, (restore_banner :: t). eauto 6.
      * exists e_ok, (restore_banner :: t ++ e4).
        rewrite <- app_assoc. eauto 6.
    + rewrite (bind_exited _ _ _ _ _ _ E3).
      intros H. injection H as <- <- <-.
      apply checked_prefix; [assumption|].
      apply checked_cons; [exact I|].
      apply checked_prefix; [assumption|].
      apply checked_cons; [exact I | assumption].
    + apply program_run in E3.
      destruct E3 as [[? _] | (? & ? & ? & ? & ? & _)]; discriminate.
    + apply program_run in E3.
      destruct E3 as [[? _] | (? & ? & ? & ? & ? & _)]; discriminate.
Qed.

End CheckedRuns.

(** ** Inverting a run *)

(** [r] is the outcome [r0] of a computation that did not return, seen at
    another result type. *)
Definition same_stop {A B : Type} (r0 : result A) (r : result B) : Prop :=
  match r0, r with
  | Exited c, Exited c' => c = c'
  | Raised x, Raised x' => x = x'
  | OutOfFuel, OutOfFuel => True
  | _, _ => False
  end.

Lemma bind_returned_inv {St A B : Type} (m : M St A) (k : A -> M St B)
  s a s1 e1 r s' evs :
  m s = (Returned a, s1, e1) ->
  bind m k s = (r, s', evs) ->
  exists e2, k a s1 = (r, s', e2) /\ evs = e1 ++ e2.
Proof.
  intros E H. rewrite (bind_returned _ _ _ _ _ _ E) in H.
  destruct (k a s1) as [[r2 s2] e2]. injection H as <- <- <-. eauto.
Qed.

Lemma bind_stopped_inv {St A B : Type} (m : M St A) (k : A -> M St B)
  s r0 s1 e1 r s' evs :
  m s = (r0, s1, e1) ->
  (forall a, r0 <> Returned a) ->
  bind m k s = (r, s', evs) ->
  same_stop r0 r /\ s' = s1 /\ evs = e1.
Proof.
  intros E Hr H. unfold bind in H. rewrite E in H.
  destruct r0; [now contradiction (Hr a) | | | ];
    injection H as <- <- <-; simpl; auto.
Qed.

Lemma bind_emit_inv {St B : Type} (e : event) (k : unit -> M St B)
  s r s' evs :
  bind (emit e) k s = (r, s', evs) ->
  exists e2, k tt s = (r, s', e2) /\ evs = e :: e2.
Proof.
  intros H. rewrite bind_emit in H.
  destruct (k tt s) as [[r2 s2] e2]. injection H as <- <- <-. eauto.
Qed.

Lemma emit_inv {St : Type} (e : event) (s : St) r s' evs :
  emit e s = (r, s', evs) -> r = Returned tt /\ s' = s /\ evs = [e].
Proof. intros H. injection H as <- <- <-. auto. Qed.

Lemma ret_inv {St A : Type} (a : A) (s : St) r s' evs :
  ret a s = (r, s', evs) -> r = Returned a /\ s' = s /\ evs = [].
Proof. intros H. injection H as <- <- <-. auto. Qed.

Lemma raise_inv {St A : Type} (x : exn) (s : St) (r : result A) s' evs :
  raise x s = (r, s', evs) -> r = Raised x /\ s' = s /\ evs = [].
Proof. intros H. injection H as <- <- <-. auto. Qed.

Lemma same_stop_not_returned {A B : Type} (r0 : result A) (r : result B) b :
  same_stop r0 r -> r <> Returned b.
Proof. destruct r0, r; simpl; intros H; try contradiction; discriminate. Qed.

(** One step through a run held in hypothesis [H]: the first computation
    of a [bind] either returned, and [H] becomes the run of the rest, or
    stopped the whole run. *)
Ltac run_step H :=
  lazymatch type of H with
  | bind (emit _) _ _ = _ =>
      apply bind_emit_inv in H; destruct H as (? & H & ->); cbv beta in H
  | bind (print _) _ _ = _ =>
      apply bind_emit_inv in H; destruct H as (? & H & ->); cbv beta in H
  | bind (ret _) _ _ = _ => rewrite bind_ret in H; cbv beta in H
  | bind ?m ?k ?s = _ =>
      let E := fresh "E" in
      let S := fresh "Hstop" in
      destruct (m s) as [[[?|?|?|] ?] ?] eqn:E;
      [ apply (bind_returned_inv _ _ _ _ _ _ _ _ _ E) in H;
        destruct H as (? & H & ->); cbv beta in H
      | apply (bind_stopped_inv _ _ _ _ _ _ _ _ _ E) in H;
        [destruct H as (S & -> & ->) | discriminate]
      | apply (bind_stopped_inv _ _ _ _ _ _ _ _ _ E) in H;
        [destruct H as (S & -> & ->) | discriminate]
      | apply (bind_stopped_inv _ _ _ _ _ _ _ _ _ E) in H;
        [destruct H as (S & -> & ->) | discriminate] ]
  | emit _ _ = _ => apply emit_inv in H; destruct H as (-> & -> & ->)
  | print _ _ = _ => apply emit_inv in H; destruct H as (-> & -> & ->)
  | ret _ _ = _ => apply ret_inv in H; destruct H as (-> & -> & ->)
  | raise _ _ = _ => apply raise_inv in H; destruct H as (-> & -> & ->)
  end.

Lemma checked_stop content (r0 r : result unit) evs :
  checked_run content r0 evs -> same_stop r0 r -> checked_run content r evs.
Proof.
  intros (e_ok & e_end & -> & Hok & Hend) Hs.
  exists e_ok, e_end. split; [reflexivity|]. split; [assumption|].
  destruct Hend as [-> | [[t ->] | (a' & sd & c & -> & -> & Hc)]]; eauto.
  destruct r; simpl in Hs; try contradiction. subst. right; right. eauto 6.
Qed.

Section SpawnRuns.

Variable St : Type.
Variable ops : DeviceOps St.
Variable fs : string -> option (list byte).

Lemma reset_inv (s : St) r s' evs :
  reset ops s = (r, s', evs) ->
  r = Returned tt /\ s' = dev_reset ops s /\ evs = [EvReset].
Proof. intros H. injection H as <- <- <-. auto. Qed.

Lemma create_device_inv (s : St) r s' evs :
  create_device ops s = (r, s', evs) ->
  r = Returned (fst (dev_create ops s)) /\ s' = snd (dev_create ops s)
  /\ evs = [EvCreateDevice (fst (dev_create ops s))].
Proof.
  unfold create_device. destruct (dev_create ops s).
  intros H. injection H as <- <- <-. auto.
Qed.

Lemma flash_or_skip_checked args bin_path content s r s' evs :
  fs bin_path = Some content ->
  flash_or_skip ops fs args bin_path s = (r, s', evs) ->
  checked_run content r evs.
Proof.
  intros Hfs H. unfold flash_or_skip in H.
  assert (Hscan : forall str s r s' evs,
             compare_bin_w_device ops fs bin_path str s = (r, s', evs) ->
             Forall (commit_ok content) evs).
  { intros. eapply scan_ok, compare_bin_w_device_events. eassumption. }
  assert (Hup : forall s r s' evs,
             upload_bin ops fs bin_path s = (r, s', evs) ->
             checked_run content r evs).
  { intros. eapply upload_bin_checked; eassumption. }
  assert (Hrest :
    forall s r s' evs,
      (upload_bin ops fs bin_path ;;;
       _ <- compare_bin_w_device ops fs bin_path "Verifying" ;;
       if negb (arg_no_reset args) then
         print "Resetting device..." ;;; reset ops
       else ret tt) s = (r, s', evs) ->
      checked_run content r evs).
  { clear H. intros s0 r0 s0' evs0 H. run_step H.
    - apply Hup in E. run_step H.
      + apply Hscan in E0.
        assert (Hx : Forall (commit_ok content) x0).
        { destruct (negb (arg_no_reset args)).
          - run_step H. apply reset_inv in H as (-> & -> & ->). forall_app.
          - run_step H. constructor. }
        rewrite app_assoc.
        apply (checked_suffix content r0 tt); [|exact Hx].
        eapply checked_suffix; eassumption.
      + apply Hscan in E0. eapply checked_suffix; eassumption.
      + apply Hscan in E0. eapply checked_suffix; eassumption.
      + apply Hscan in E0. eapply checked_suffix; eassumption.
    - eapply checked_stop; [eapply Hup; eassumption | assumption].
    - eapply checked_stop; [eapply Hup; eassumption | assumption].
    - eapply checked_stop; [eapply Hup; eassumption | assumption]. }
  destruct (arg_force args); cbn [negb] in H.
  - run_step H. run_step H. now apply Hrest in H.
  - run_step H.
    + apply Hscan in E. destruct a.
      * run_step H. apply checked_ok. forall_app.
      * run_step H. apply Hrest in H.
        apply checked_prefix; [assumption|].
        apply checked_cons; [exact I | assumption].
    + apply checked_ok. eapply Hscan; eassumption.
    + apply checked_ok. eapply Hscan; eassumption.
    + apply checked_ok. eapply Hscan; eassumption.
Qed.

Lemma spawn_checked fuel args bin_path content s r s' evs :
  arg_recovery args = false ->
  arg_bin args = Some bin_path ->
  fs bin_path = Some content ->
  spawn ops fs fuel args s = (r, s', evs) ->
  checked_run content r evs.
Proof.
  intros Hrec Hbin Hfs H. unfold spawn in H. cbv zeta in H.
  rewrite Hrec, Hbin in H. cbn [path_of] in H.
  assert (Hfile : is_file fs bin_path = true).
  { unfold is_file. now rewrite Hfs. }
  rewrite Hfile in H. cbn [negb] in H. rewrite andb_false_r in H.
  assert (Hinner :
    forall s r s' evs,
      (emit EvInitRouter ;;;
       responded <- create_device ops ;;
       if negb responded then raise ResponseError
       else if negb (truthy (Some bin_path)) then
         raise (FileNotFoundError "No bin file specified!")
       else if truthy (Some bin_path)
       then flash_or_skip ops fs args bin_path
       else ret tt) s = (r, s', evs) ->
      checked_run content r evs).
  { clear H. intros s0 r0 s0' evs0 H. run_step H. run_step H.
    - apply create_device_inv in E as (Ea & -> & ->).
      apply checked_cons; [exact I|]. apply checked_cons; [exact I|].
      destruct (negb a).
      + run_step H. now apply checked_ok.
      + destruct (truthy (Some bin_path)); cbn [negb] in H.
        * eapply flash_or_skip_checked; eassumption.
        * run_step H. now apply checked_ok.
    - apply create_device_inv in E as (Ea & _). discriminate.
    - apply create_device_inv in E as (Ea & _). discriminate.
    - apply create_device_inv in E as (Ea & _). discriminate. }
  run_step H.
  - apply Hinner in E. run_step H.
    eapply checked_suffix; [eassumption | forall_app].
  - eapply checked_stop; [eapply Hinner; eassumption | assumption].
  - eapply checked_stop; [eapply Hinner; eassumption | assumption].
  - eapply checked_stop; [eapply Hinner; eassumption | assumption].
Qed.

End SpawnRuns.

(** ** Concrete runs on the simulated device *)

Module Runs.

(** A 32-byte image: two full chunks. *)
Definition image32 : list byte :=
[x01; x00; x00; x00; x02; x00; x00; x00;
 x03; x00; x00; x00; x04; x00; x00; x00;
 x05; x00; x00; x00; x06; x00; x00; x00;
 x07; x00; x00; x00; x08; x00; x00; x00].

(** The device answers the commit of the second chunk (at 0x1010) with a
  wrong checksum. *)
Definition bad_second_chunk : Sim.config := {|
Sim.supports_seed := true;
Sim.erase_status := 0;
Sim.bad_checksum_at := fun a => a =? 0x1010;
Sim.corrupt_at := fun _ => false
|}.

Definition run_bad_checksum :=
spawn (Sim.ops bad_second_chunk) (Sim.one_file image32) 0
  (Sim.args_bin true false) Sim.blank_device.

End Runs.

(** ** Claims *)

(** C1. In any run of [spawn] that flashes an existing image, a commit
    issued while programming (that is, before the NVM restore announces
    itself) and answered with a checksum different from the local checksum
    of the chunk at its address is the last request of the run: the only
    event after it is the mismatch message, and the process ends with
    [sys.exit(1)].  So no further chunk is written and neither the NVM
    restore nor the verification or reset is attempted. *)
Theorem checksum_mismatch_stops_program
  (St : Type) (ops : DeviceOps St) (fs : string -> option (list byte))
  (fuel : nat) (args : arguments) (bin_path : string) (content : list byte)
  (s : St) (r : result unit) (s' : St) (evs pre post : list event)
  (a : Z) (sd : option Z) (c : Z) :
  arg_recovery args = false ->
  arg_bin args = Some bin_path ->
  fs bin_path = Some content ->
  spawn ops fs fuel args s = (r, s', evs) ->
  evs = pre ++ EvCommit a sd (Some c) :: post ->
  existsb is_restore_banner pre = false ->
  c <> calculate_local_checksum (chunk_at content a) ->
  r = Exited 1 /\ post = [EvPrint (msg_checksum_mismatch a)].
Proof.
  intros Hrec Hbin Hfs Hrun Hevs Hban Hbad.
  destruct (spawn_checked _ _ _ _ _ _ _ _ _ _ _ Hrec Hbin Hfs Hrun)
    as (e_ok & e_end & E & Hok & Hend).
  rewrite E in Hevs.
  destruct (split_past (commit_ok content) e_ok e_end pre post
              (EvCommit a sd (Some c)) Hok Hbad Hevs) as (pre' & -> & Eend).
  rewrite existsb_app in Hban. apply orb_false_iff in Hban as [_ Hban].
  destruct Hend as [-> | [[t ->] | (a' & sd' & c' & -> & -> & Hc')]].
  - destruct pre'; discriminate.
  - destruct pre' as [|b pre']; [discriminate|].
    injection Eend as <- _. discriminate.
  - destruct pre' as [|b pre'].
    + injection Eend as -> -> -> <-. auto.
    + injection Eend as _ Eend.
      destruct pre' as [|b' pre']; [discriminate|].
      injection Eend as _ Eend. destruct pre'; discriminate.
Qed.

Lemma checksum_mismatch_stops_program_witness :
  fst (fst Runs.run_bad_checksum) = Exited 1
  /\ skipn 4124 (snd Runs.run_bad_checksum)
     = [EvPrint (msg_checksum_mismatch 0x1010)].
Proof.
  apply (checksum_mismatch_stops_program _
           (Sim.ops Runs.bad_second_chunk) (Sim.one_file Runs.image32)
           0%nat (Sim.args_bin true false) "fw.bin" Runs.image32
           Sim.blank_device
           (fst (fst Runs.run_bad_checksum))
           (snd (fst Runs.run_bad_checksum))
           (snd Runs.run_bad_checksum)
           (firstn 4123 (snd Runs.run_bad_checksum))
           (skipn 4124 (snd Runs.run_bad_checksum))
           0x1010 (Some 0x1234ABCD) 27).
  - reflexivity.
  - reflexivity.
  - reflexivity.
  - unfold Runs.run_bad_checksum.
    destruct (spawn _ _ _ _ _) as [[r s] e]. reflexivity.
  - vm_compute. reflexivity.
  - vm_compute. reflexivity.
  - vm_compute. discriminate.
Defined.

(** The error raised for a missing or non-existing image, once the device
    has answered. *)
Definition image_error (fs : string -> option (list byte))
  (bin_path : option string) : exn :=
  if truthy bin_path then FileNotFoundError (msg_not_found (path_of bin_path))
  else FileNotFoundError "No bin file specified!".

(** C4. The claim as stated fails: with no [--bin] at all, [spawn] first
    sets up the bus and addresses the device ([create_device], a request
    the device answers) and only then raises the error. *)
Lemma image_not_found_after_addressing :
  spawn (Sim.ops Sim.good) (Sim.one_file []) 0
    {| arg_bin := None; arg_recovery := false;
       arg_no_reset := false; arg_force := false |}
    Sim.blank_device
  = (Raised (FileNotFoundError "No bin file specified!"),
     Sim.blank_device,
     [EvInitRouter; EvCreateDevice true])
  /\ existsb is_device [EvInitRouter; EvCreateDevice true] = true.
Proof. split; reflexivity. Qed.

(** C4, amended.  Outside recovery mode, when the image path is missing
    (or empty) or names no file, [spawn] initialises the bus, addresses the
    device once, and then stops: with [FileNotFoundError] if the device
    answered, with [ResponseError] if it did not.  No flash read, scratch
    write, commit, erase or reset is issued, and the router is not torn
    down. *)
Theorem image_not_found_before_flash_requests
  (St : Type) (ops : DeviceOps St) (fs : string -> option (list byte))
  (fuel : nat) (args : arguments) (s : St) :
  arg_recovery args = false ->
  truthy (arg_bin args) = false
  \/ is_file fs (path_of (arg_bin args)) = false ->
  spawn ops fs fuel args s
  = (Raised (if fst (dev_create ops s)
             then image_error fs (arg_bin args) else ResponseError),
     snd (dev_create ops s),
     [EvInitRouter; EvCreateDevice (fst (dev_create ops s))])
  /\ existsb is_flash_request
       [EvInitRouter; EvCreateDevice (fst (dev_create ops s))] = false.
Proof.
  intros Hrec Hbin. split; [|reflexivity].
  unfold spawn, image_error. cbv zeta. rewrite Hrec.
  unfold bind, emit, create_device, raise.
  destruct (dev_create ops s) as [[|] s1]; cbn [negb fst snd app].
  - destruct (truthy (arg_bin args)) eqn:Ht; cbn [negb andb].
    + destruct Hbin as [Hb | Hb]; [discriminate|].
      rewrite Hb. reflexivity.
    + reflexivity.
  - reflexivity.
Qed.

Lemma image_not_found_before_flash_requests_witness :
  spawn (Sim.ops Sim.good) (Sim.one_file Runs.image32) 0
    {| arg_bin := Some "missing.bin"%string; arg_recovery := false;
       arg_no_reset := false; arg_force := false |}
    Sim.blank_device
  = (Raised (FileNotFoundError "Bin file missing.bin not found!"),
     Sim.blank_device,
     [EvInitRouter; EvCreateDevice true])
  /\ existsb is_flash_request [EvInitRouter; EvCreateDevice true] = false.
Proof.
  apply (image_not_found_before_flash_requests _
           (Sim.ops Sim.good) (Sim.one_file Runs.image32) 0%nat
           {| arg_bin := Some "missing.bin"%string; arg_recovery := false;
              arg_no_reset := false; arg_force := false |}
           Sim.blank_device).
  - reflexivity.
  - right. reflexivity.
Defined.

(** C10. For a zero-byte image [upload_bin] checks nothing about the size:
    once the NVM backup has been read it issues the erase, and when the
    erase reports success it programs no chunk at all (the only events of
    the programming phase are the message and the progress task of total
    0) and goes on to restore the NVM backup.  When the erase fails it
    returns after the error message, again whatever the size. *)
Theorem upload_empty_image
  (St : Type) (ops : DeviceOps St) (fs : string -> option (list byte))
  (bin_path : string) (s s1 s2 : St) (nvm : option (list byte))
  (e_backup e_erase : list event) (status : Z) :
  fs bin_path = Some [] ->
  read_nvm_region ops s = (Returned nvm, s1, e_backup) ->
  try_erase_all ops s1 = (Returned status, s2, e_erase) ->
  upload_bin ops fs bin_path s
  = if status =? 0 then
      (fst (fst (write_nvm_region ops nvm s2)),
       snd (fst (write_nvm_region ops nvm s2)),
       e_backup ++ [EvPrint (nl ++ "Erasing flash...")] ++ e_erase
       ++ [EvPrint "Done."; EvProgressAdd "[orange]Flashing..." 0]
       ++ snd (write_nvm_region ops nvm s2))
    else
      (Returned tt, s2,
       e_backup ++ [EvPrint (nl ++ "Erasing flash...")] ++ e_erase
       ++ [EvPrint (nl ++ "Error while erasing!")]).
Proof.
  intros Hfs Hbk Her. unfold upload_bin. rewrite Hfs.
  rewrite (bind_returned _ _ _ _ _ _ Hbk), bind_print.
  rewrite (bind_returned _ _ _ _ _ _ Her).
  destruct (status =? 0); cbn [negb].
  - rewrite bind_print.
    assert (Hp : program ops [] s2
                 = (Returned tt, s2, [EvProgressAdd "[orange]Flashing..." 0]))
      by reflexivity.
    rewrite (bind_returned _ _ _ _ _ _ Hp).
    destruct (write_nvm_region ops nvm s2) as [[r4 s4] e4].
    reflexivity.
  - reflexivity.
Qed.

(** A device that holds firmware and one word of configuration. *)
Definition configured_device : Sim.state := {|
  Sim.flash :=
    Sim.upd (Sim.upd (fun _ => Sim.blank) 0x1000 0xDEADBEEF)
      0x1E010 0x11223344;
  Sim.scratch := fun _ => 0;
  Sim.silent := O
|}.

Definition returned_or {A : Type} (d : A) (r : result A) : A :=
  match r with
  | Returned a => a
  | _ => d
  end.

Lemma upload_empty_image_witness :
  let run :=
    upload_bin (Sim.ops Sim.good) (Sim.one_file []) "fw.bin"
      configured_device in
  fst (fst run) = Returned tt
  /\ Sim.flash (snd (fst run)) 0x1000 = Sim.blank
  /\ Sim.flash (snd (fst run)) 0x1E010 = 0x11223344
  /\ filter is_write (snd run)
     = [EvEraseAll (Some 0x1234ABCD) (Some 0);
        EvWriteScratch 0 0x11223344; EvWriteScratch 1 0xFFFFFFFF;
        EvWriteScratch 2 0xFFFFFFFF; EvWriteScratch 3 0xFFFFFFFF;
        EvCommit 0x1E010 (Some 0x1234ABCD) (Some 0x11223341)].
Proof.
  set (ops := Sim.ops Sim.good).
  set (backup := read_nvm_region ops configured_device).
  set (erase := try_erase_all ops (snd (fst backup))).
  assert (Hb : read_nvm_region ops configured_device
               = (Returned (returned_or None (fst (fst backup))),
                  snd (fst backup), snd backup))
    by (vm_compute; reflexivity).
  assert (He : try_erase_all ops (snd (fst backup))
               = (Returned 0, snd (fst erase), snd erase))
    by (vm_compute; reflexivity).
  cbv zeta.
  rewrite (upload_empty_image _ ops (Sim.one_file []) "fw.bin"
             configured_device _ _ _ _ _ 0 eq_refl Hb He).
  vm_compute. repeat split.
Defined.

(** ** The comparator against a flash that reads do not disturb *)

(** Comparing [n] words of the image from word [k] on with the flash
    content [fl]: whether all agree, and how many words are read until the
    answer is known. *)
Fixpoint scan (fl : Z -> Z) (content : list byte) (k n : nat) : bool * nat :=
  match n with
  | O => (true, O)
  | S n' =>
      if image_word content k =? fl (word_addr k) then
        let (b, c) := scan fl content (S k) n' in (b, S c)
      else (false, 1%nat)
  end.

Definition read_event (fl : Z -> Z) (k : nat) : event :=
  EvReadFlash (word_addr k) (fl (word_addr k)).

Lemma scan_true fl content n :
  forall k,
    fst (scan fl content k n) = true <->
    (forall i, (k <= i < k + n)%nat ->
               image_word content i = fl (word_addr i)).
Proof.
  induction n as [|n IH]; intros k; simpl.
  - split; [intros _ i Hi; lia | reflexivity].
  - destruct (image_word content k =? fl (word_addr k)) eqn:E.
    + specialize (IH (S k)).
      destruct (scan fl content (S k) n) as [b c]. simpl in *.
      rewrite IH. apply Z.eqb_eq in E. split; intros H i Hi.
      * destruct (Nat.eq_dec i k) as [->|]; [assumption | apply H; lia].
      * apply H. lia.
    + apply Z.eqb_neq in E. simpl. split; [discriminate|].
      intros H. exfalso. apply E, H. lia.
Qed.

Lemma scan_true_count fl content n :
  forall k, fst (scan fl content k n) = true ->
            snd (scan fl content k n) = n.
Proof.
  induction n as [|n IH]; intros k; simpl; [reflexivity|].
  destruct (image_word content k =? fl (word_addr k)); [|discriminate].
  specialize (IH (S k)). destruct (scan fl content (S k) n) as [b c].
  simpl in *. intros H. now rewrite IH.
Qed.

(** When the scan fails, the last word read is the first that differs. *)
Lemma scan_false fl content n :
  forall k,
    fst (scan fl content k n) = false ->
    let c := snd (scan fl content k n) in
    (1 <= c <= n)%nat
    /\ image_word content (k + c - 1) <> fl (word_addr (k + c - 1))
    /\ (forall i, (k <= i < k + c - 1)%nat ->
                  image_word content i = fl (word_addr i)).
Proof.
  induction n as [|n IH]; intros k; simpl; [discriminate|].
  destruct (image_word content k =? fl (word_addr k)) eqn:E.
  - specialize (IH (S k)). destruct (scan fl content (S k) n) as [b c].
    simpl in *. intros Hb. destruct (IH Hb) as (Hc & Hne & Hall).
    apply Z.eqb_eq in E. split; [lia|]. split.
    + replace (k + S c - 1)%nat with (S k + c - 1)%nat by lia. exact Hne.
    + intros i Hi. destruct (Nat.eq_dec i k) as [->|]; [assumption|].
      apply Hall. lia.
  - simpl. intros _. apply Z.eqb_neq in E. split; [lia|]. split.
    + now replace (k + 1 - 1)%nat with k by lia.
    + intros i Hi. lia.
Qed.

Lemma scan_app fl content n1 n2 :
  forall k,
    scan fl content k (n1 + n2)
    = if fst (scan fl content k n1) then
        (fst (scan fl content (k + n1) n2),
         (n1 + snd (scan fl content (k + n1) n2))%nat)
      else (false, snd (scan fl content k n1)).
Proof.
  induction n1 as [|n1 IH]; intros k; simpl.
  - rewrite Nat.add_0_r. now destruct (scan fl content k n2).
  - destruct (image_word content k =? fl (word_addr k)); [|reflexivity].
    rewrite IH. replace (k + S n1)%nat with (S k + n1)%nat by lia.
    destruct (scan fl content (S k) n1) as [[|] c]; reflexivity.
Qed.

Section PureReads.

Variable St : Type.
Variable ops : DeviceOps St.
Variable fs : string -> option (list byte).

(** What a read at each address returns in each state of the device. *)
Variable flash : St -> Z -> Z.

(** Reading returns the flash content and changes nothing. *)
Hypothesis read_pure :
  forall st a, dev_read_flash_32 ops st a = (flash st a, st).

Lemma compare_words_scan content j s n :
  forall i,
    (i + n <= 4)%nat ->
    compare_words ops (nth_chunk content j) (chunk_addr j) (seq i n) s
    = (Returned (fst (scan (flash s) content (4 * j + i) n)), s,
       map (read_event (flash s))
         (seq (4 * j + i) (snd (scan (flash s) content (4 * j + i) n)))).
Proof.
  induction n as [|n IH]; intros i Hi; [reflexivity|].
  cbn [seq compare_words scan].
  unfold bind, read_flash_32. rewrite read_pure.
  rewrite chunk_word_nth_chunk by lia.
  replace (chunk_addr j + Z.of_nat i * 4) with (word_addr (4 * j + i))
    by (unfold chunk_addr, word_addr; lia).
  destruct (image_word content (4 * j + i) =? flash s (word_addr (4 * j + i)));
    cbn [negb].
  - rewrite IH by lia.
    replace (4 * j + S i)%nat with (S (4 * j + i)) by lia.
    destruct (scan (flash s) content (S (4 * j + i)) n) as [b c].
    reflexivity.
  - reflexivity.
Qed.

Lemma device_events_app e1 e2 :
  device_events (e1 ++ e2) = device_events e1 ++ device_events e2.
Proof. apply filter_app. Qed.

Lemma device_events_reads fl ks :
  device_events (map (read_event fl) ks) = map (read_event fl) ks.
Proof. induction ks as [|k ks IH]; simpl; [reflexivity | now rewrite IH]. Qed.

Lemma compare_loop_scan content :
  forall n j fuel s,
    n = (num_chunks content - j)%nat ->
    (n + 1 <= fuel)%nat ->
    exists evs,
      compare_loop ops fuel (nth_chunk content j) (unread_after content j)
        (chunk_addr j) s
      = (Returned (fst (scan (flash s) content (4 * j) (4 * n))), s, evs)
      /\ device_events evs
         = map (read_event (flash s))
             (seq (4 * j) (snd (scan (flash s) content (4 * j) (4 * n)))).
Proof.
  induction n as [|n IH]; intros j fuel s Hn Hfuel;
    (destruct fuel as [|fuel]; [lia|]); rewrite compare_loop_S.
  - assert (Hne : nonempty (nth_chunk content j) = false).
    { destruct (nonempty (nth_chunk content j)) eqn:E; [|reflexivity].
      apply nonempty_nth_chunk in E. lia. }
    rewrite Hne. exists []. split; reflexivity.
  - assert (Hne : nonempty (nth_chunk content j) = true).
    { apply nonempty_nth_chunk. lia. }
    rewrite Hne.
    pose proof (compare_words_scan content j s 4 0 ltac:(lia)) as Hw.
    rewrite Nat.add_0_r in Hw.
    change (seq 0 BIN_CHUNK_SIZE) with (seq 0 4).
    rewrite (bind_returned _ _ _ _ _ _ Hw).
    replace (4 * S n)%nat with (4 + 4 * n)%nat by lia.
    rewrite scan_app.
    destruct (fst (scan (flash s) content (4 * j) 4)) eqn:Eb.
    + rewrite file_read_unread. cbv beta iota zeta.
      rewrite chunk_addr_next, bind_emit.
      destruct (IH (S j) fuel s ltac:(lia) ltac:(lia)) as (e2 & E2 & Hd).
      rewrite E2. replace (4 * S j)%nat with (4 * j + 4)%nat in * by lia.
      eexists. split; [reflexivity|].
      rewrite device_events_app, device_events_reads.
      cbn [fst snd]. rewrite (scan_true_count _ _ _ _ Eb).
      rewrite seq_app, map_app. f_equal.
      change (device_events (EvProgressUpdate ?x :: e2))
        with (device_events e2).
      exact Hd.
    + eexists. split; [reflexivity|].
      rewrite app_nil_r, device_events_reads. reflexivity.
Qed.

Lemma compare_bin_w_device_scan bin_path str content s :
  fs bin_path = Some content ->
  exists evs,
    compare_bin_w_device ops fs bin_path str s
    = (Returned (fst (scan (flash s) content 0 (4 * num_chunks content))),
       s, evs)
    /\ device_events evs
       = map (read_event (flash s))
           (seq 0 (snd (scan (flash s) content 0 (4 * num_chunks content)))).
Proof.
  intros Hfs. unfold compare_bin_w_device. rewrite Hfs. cbv zeta.
  rewrite bind_emit, file_read_start.
  change FLASH_START_ADDR with (chunk_addr 0).
  destruct (compare_loop_scan content (num_chunks content - 0) 0
              (S (S (List.length content))) s eq_refl) as (evs & E & Hd).
  { pose proof (num_chunks_le content). lia. }
  rewrite E. rewrite Nat.sub_0_r in *. change (4 * 0)%nat with 0%nat in *.
  eexists. split; [reflexivity|]. exact Hd.
Qed.

End PureReads.

(** ** Properties that every run has

    A property of event lists that holds of the empty list, is kept by
    concatenation, and holds of every single event other than a commit, an
    erase or the router teardown, and of the events of every [try_commit]
    and [try_erase_all], holds of the events of every phase. *)

Definition is_erase (e : event) : bool :=
  match e with
  | EvEraseAll _ _ => true
  | _ => false
  end.

Definition is_teardown (e : event) : bool :=
  match e with
  | EvDestroyRouter => true
  | _ => false
  end.

Definition simple (e : event) : bool :=
  negb (is_commit e) && negb (is_erase e) && negb (is_teardown e).

Lemma is_scan_simple e : is_scan e = true -> simple e = true.
Proof. destruct e; intros H; try discriminate H; reflexivity. Qed.

Lemma observes_simple e : observes e = true -> simple e = true.
Proof. destruct e; intros H; try discriminate H; reflexivity. Qed.

Section Closure.

Variable St : Type.
Variable ops : DeviceOps St.
Variable fs : string -> option (list byte).

Variable P : list event -> Prop.
Hypothesis P_nil : P [].
Hypothesis P_app : forall e1 e2, P e1 -> P e2 -> P (e1 ++ e2).
Hypothesis P_simple : forall e, simple e = true -> P [e].
Hypothesis P_commit :
  forall a s r s' evs, try_commit ops a s = (r, s', evs) -> P evs.
Hypothesis P_erase :
  forall s r s' evs, try_erase_all ops s = (r, s', evs) -> P evs.

Lemma P_cons e evs : simple e = true -> P evs -> P (e :: evs).
Proof. intros He H. apply (P_app [e] evs); auto. Qed.

Lemma P_all_simple evs : Forall (fun e => simple e = true) evs -> P evs.
Proof.
  induction 1 as [|e evs He _ IH]; [exact P_nil | now apply P_cons].
Qed.

Lemma P_scan evs : Forall (fun e => is_scan e = true) evs -> P evs.
Proof.
  intros H. apply P_all_simple. revert H. apply Forall_impl.
  exact is_scan_simple.
Qed.

Lemma P_observes evs : Forall (fun e => observes e = true) evs -> P evs.
Proof.
  intros H. apply P_all_simple. revert H. apply Forall_impl.
  exact observes_simple.
Qed.

Lemma for_each_closed {A : Type} (body : A -> M St unit) :
  (forall x s r s' evs, body x s = (r, s', evs) -> P evs) ->
  forall l s r s' evs, for_each l body s = (r, s', evs) -> P evs.
Proof.
  intros Hbody. induction l as [|x l IH]; intros s r s' evs H;
    cbn [for_each] in H.
  - run_step H. exact P_nil.
  - run_step H; try (eapply Hbody; eassumption).
    apply P_app; [eapply Hbody | eapply IH]; eassumption.
Qed.

Lemma load_scratch_closed chunk s r s' evs :
  load_scratch ops chunk s = (r, s', evs) -> P evs.
Proof.
  rewrite load_scratch_run. intros H. injection H as <- <- <-.
  apply P_all_simple. repeat constructor.
Qed.

Lemma write_nvm_chunk_closed data j s r s' evs :
  write_nvm_chunk ops data j s = (r, s', evs) -> P evs.
Proof.
  unfold write_nvm_chunk. cbv zeta. intros H.
  destruct (all_ff _).
  - run_step H. now apply P_simple.
  - run_step H; try (eapply load_scratch_closed; eassumption).
    apply P_app; [eapply load_scratch_closed; eassumption|].
    run_step H; try (eapply P_commit; eassumption).
    apply P_app; [eapply P_commit; eassumption|].
    run_step H. now apply P_simple.
Qed.

Lemma write_nvm_region_closed data s r s' evs :
  write_nvm_region ops data s = (r, s', evs) -> P evs.
Proof.
  unfold write_nvm_region. destruct data as [data|]; intros H.
  - cbv zeta in H. run_step H. apply P_cons; [reflexivity|].
    run_step H. apply P_cons; [reflexivity|].
    run_step H;
      try (eapply for_each_closed;
           [intros; eapply write_nvm_chunk_closed|]; eassumption).
    apply P_app.
    + eapply for_each_closed;
        [intros; eapply write_nvm_chunk_closed|]; eassumption.
    + run_step H. now apply P_simple.
  - run_step H. exact P_nil.
Qed.

Lemma program_loop_closed :
  forall fuel chunk bin_file a s r s' evs,
    program_loop ops fuel chunk bin_file a s = (r, s', evs) -> P evs.
Proof.
  induction fuel as [|fuel IH]; intros chunk bin_file a s r s' evs H.
  - injection H as <- <- <-. exact P_nil.
  - rewrite program_loop_S in H. destruct (nonempty chunk).
    + run_step H; try (eapply load_scratch_closed; eassumption).
      apply P_app; [eapply load_scratch_closed; eassumption|].
      run_step H; try (eapply P_commit; eassumption).
      apply P_app; [eapply P_commit; eassumption|].
      cbv zeta in H. destruct (negb _).
      * run_step H. apply P_cons; [reflexivity|].
        injection H as <- <- <-. exact P_nil.
      * destruct (file_read _ bin_file) as [c' f'].
        run_step H. apply P_cons; [reflexivity|]. eapply IH; eassumption.
    + run_step H. exact P_nil.
Qed.

Lemma program_closed content s r s' evs :
  program ops content s = (r, s', evs) -> P evs.
Proof.
  unfold program. cbv zeta. intros H.
  destruct (file_read _ content) as [c f].
  run_step H. apply P_cons; [reflexivity|].
  eapply program_loop_closed; eassumption.
Qed.

Lemma compare_closed bin_path str s r s' evs :
  compare_bin_w_device ops fs bin_path str s = (r, s', evs) -> P evs.
Proof.
  intros H. eapply P_scan, compare_bin_w_device_events. eassumption.
Qed.

Lemma upload_bin_closed bin_path s r s' evs :
  upload_bin ops fs bin_path s = (r, s', evs) -> P evs.
Proof.
  unfold upload_bin. destruct (fs bin_path) as [content|]; intros H.
  - run_step H;
      try (eapply P_observes, read_nvm_region_events; eassumption).
    apply P_app;
      [eapply P_observes, read_nvm_region_events; eassumption|].
    run_step H. apply P_cons; [reflexivity|].
    run_step H; try (eapply P_erase; eassumption).
    apply P_app; [eapply P_erase; eassumption|].
    destruct (negb _).
    + run_step H. now apply P_simple.
    + run_step H. apply P_cons; [reflexivity|].
      run_step H; try (eapply program_closed; eassumption).
      apply P_app; [eapply program_closed; eassumption|].
      eapply write_nvm_region_closed; eassumption.
  - run_step H. exact P_nil.
Qed.

Lemma flash_or_skip_closed args bin_path s r s' evs :
  flash_or_skip ops fs args bin_path s = (r, s', evs) -> P evs.
Proof.
  unfold flash_or_skip. intros H.
  assert (Hrest :
    forall s r s' evs,
      (upload_bin ops fs bin_path ;;;
       _ <- compare_bin_w_device ops fs bin_path "Verifying" ;;
       if negb (arg_no_reset args) then
         print "Resetting device..." ;;; reset ops
       else ret tt) s = (r, s', evs) -> P evs).
  { clear H. intros s0 r0 s0' evs0 H.
    run_step H; try (eapply upload_bin_closed; eassumption).
    apply P_app; [eapply upload_bin_closed; eassumption|].
    run_step H; try (eapply compare_closed; eassumption).
    apply P_app; [eapply compare_closed; eassumption|].
    destruct (negb _).
    - run_step H. apply P_cons; [reflexivity|].
      apply reset_inv in H as (-> & -> & ->). now apply P_simple.
    - run_step H. exact P_nil. }
  destruct (arg_force args); cbn [negb] in H.
  - run_step H. run_step H. eapply Hrest; eassumption.
  - run_step H; try (eapply compare_closed; eassumption).
    apply P_app; [eapply compare_closed; eassumption|].
    destruct a.
    + run_step H. now apply P_simple.
    + run_step H. apply P_cons; [reflexivity|]. eapply Hrest; eassumption.
Qed.

Lemma recovery_loop_closed :
  forall fuel s r s' evs,
    recovery_loop ops fuel s = (r, s', evs) -> P evs.
Proof.
  induction fuel as [|fuel IH]; intros s r s' evs H; cbn [recovery_loop] in H.
  - injection H as <- <- <-. exact P_nil.
  - run_step H;
      try (apply create_device_inv in E as (Ea & _); discriminate).
    apply create_device_inv in E as (_ & -> & ->).
    apply P_cons; [reflexivity|]. destruct a.
    + run_step H. now apply P_simple.
    + eapply IH; eassumption.
Qed.

(** The part of [spawn] that precedes [destroy_router()]. *)
Definition spawn_body (fuel : nat) (args : arguments) : M St unit :=
  let bin_path := arg_bin args in
  if arg_recovery args then
    emit (EvInput
      "Please power off the device and then press any key to continue...") ;;;
    print "Now power on the device." ;;;
    emit EvInitRouter ;;;
    recovery_loop ops fuel
  else
    emit EvInitRouter ;;;
    responded <- create_device ops ;;
    if negb responded then raise ResponseError
    else if negb (truthy bin_path) then
      raise (FileNotFoundError "No bin file specified!")
    else if truthy bin_path
            && negb (is_file fs (path_of bin_path)) then
      raise (FileNotFoundError (msg_not_found (path_of bin_path)))
    else if truthy bin_path then flash_or_skip ops fs args (path_of bin_path)
    else ret tt.

Lemma spawn_unfold fuel args :
  spawn ops fs fuel args = (spawn_body fuel args ;;; emit EvDestroyRouter).
Proof. reflexivity. Qed.

Lemma spawn_body_closed fuel args s r s' evs :
  spawn_body fuel args s = (r, s', evs) -> P evs.
Proof.
  unfold spawn_body. cbv zeta. intros H. destruct (arg_recovery args).
  - run_step H. apply P_cons; [reflexivity|].
    run_step H. apply P_cons; [reflexivity|].
    run_step H. apply P_cons; [reflexivity|].
    eapply recovery_loop_closed; eassumption.
  - run_step H. apply P_cons; [reflexivity|].
    run_step H;
      try (apply create_device_inv in E as (Ea & _); discriminate).
    apply create_device_inv in E as (_ & -> & ->).
    apply P_cons; [reflexivity|].
    destruct (negb a); [run_step H; exact P_nil|].
    destruct (negb (truthy _)); [run_step H; exact P_nil|].
    destruct (_ && _); [run_step H; exact P_nil|].
    destruct (truthy _); [|run_step H; exact P_nil].
    eapply flash_or_skip_closed; eassumption.
Qed.

End Closure.

Arguments spawn_body {St} ops fs fuel args _.

(** ** How the protocol variant is chosen *)

(** Each commit and each erase stands alone: it is issued in the seeded
    form with [seed], and the unseeded form occurs only as the immediate
    retry, at the same address, of a seeded call that raised [TypeError]. *)
Inductive call_by_call (seed : Z) : list event -> Prop :=
| cbc_nil : call_by_call seed []
| cbc_other e t :
    is_commit e = false -> is_erase e = false ->
    call_by_call seed t -> call_by_call seed (e :: t)
| cbc_commit_seeded a c t :
    call_by_call seed t ->
    call_by_call seed (EvCommit a (Some seed) (Some c) :: t)
| cbc_commit_retry a c t :
    call_by_call seed t ->
    call_by_call seed
      (EvCommit a (Some seed) None :: EvCommit a None (Some c) :: t)
| cbc_erase_seeded r t :
    call_by_call seed t ->
    call_by_call seed (EvEraseAll (Some seed) (Some r) :: t)
| cbc_erase_retry r t :
    call_by_call seed t ->
    call_by_call seed
      (EvEraseAll (Some seed) None :: EvEraseAll None (Some r) :: t).

Lemma call_by_call_app seed e1 e2 :
  call_by_call seed e1 -> call_by_call seed e2 ->
  call_by_call seed (e1 ++ e2).
Proof.
  induction 1; intros H2; simpl; try (constructor; auto; fail); auto.
Qed.

Lemma call_by_call_counts seed evs :
  call_by_call seed evs ->
  count is_rejected_seeded evs = count is_unseeded evs.
Proof.
  unfold count. induction 1 as [|e t Hc He _ IH| | | |]; simpl;
    try congruence; try (f_equal; assumption).
  destruct e as [| | | | |a [sd|] [c|]|[sd|] [r|]| | | | | |];
    simpl in *; try discriminate; assumption.
Qed.

Lemma try_commit_shape {St : Type} (ops : DeviceOps St) a s r s' evs :
  try_commit ops a s = (r, s', evs) ->
  exists c,
    r = Returned c
    /\ (evs = [EvCommit a (Some (hash_uint32 ops)) (Some c)]
        \/ evs = [EvCommit a (Some (hash_uint32 ops)) None;
                  EvCommit a None (Some c)]).
Proof.
  unfold try_commit.
  destruct (dev_commit_seeded ops s a (hash_uint32 ops)) as [[c|] s1].
  - intros H. injection H as <- <- <-. eauto.
  - destruct (dev_commit ops s1 a) as [c s2].
    intros H. injection H as <- <- <-. eauto.
Qed.

Lemma try_erase_all_shape {St : Type} (ops : DeviceOps St) s r s' evs :
  try_erase_all ops s = (r, s', evs) ->
  exists status,
    r = Returned status
    /\ (evs = [EvEraseAll (Some (hash_uint32 ops)) (Some status)]
        \/ evs = [EvEraseAll (Some (hash_uint32 ops)) None;
                  EvEraseAll None (Some status)]).
Proof.
  unfold try_erase_all.
  destruct (dev_erase_all_seeded ops s (hash_uint32 ops)) as [[c|] s1].
  - intros H. injection H as <- <- <-. eauto.
  - destruct (dev_erase_all ops s1) as [c s2].
    intros H. injection H as <- <- <-. eauto.
Qed.

(** X1. In every run of [spawn], on any device, each commit and each
    erase_all is first tried in the seeded form with [device.hash_uint32];
    an unseeded call occurs only as the immediate retry of a seeded call
    that raised [TypeError], for the same address.  The choice is made anew
    at every call: there are exactly as many rejected seeded calls as
    unseeded ones. *)
Theorem seeded_form_tried_at_every_call
  (St : Type) (ops : DeviceOps St) (fs : string -> option (list byte))
  (fuel : nat) (args : arguments) (s : St) :
  call_by_call (hash_uint32 ops) (snd (spawn ops fs fuel args s))
  /\ count is_rejected_seeded (snd (spawn ops fs fuel args s))
     = count is_unseeded (snd (spawn ops fs fuel args s)).
Proof.
  assert (H : call_by_call (hash_uint32 ops) (snd (spawn ops fs fuel args s))).
  { rewrite spawn_unfold.
    destruct (spawn_body ops fs fuel args s) as [[r1 s1] e1] eqn:E1.
    assert (H1 : call_by_call (hash_uint32 ops) e1).
    { apply (spawn_body_closed St ops fs (call_by_call (hash_uint32 ops)))
        with (fuel := fuel) (args := args) (s := s) (r := r1) (s' := s1);
        [ constructor
        | apply call_by_call_app
        | intros e He; constructor;
          [ destruct e; try reflexivity; discriminate He
          | destruct e; try reflexivity; discriminate He
          | constructor ]
        | intros a s0 r s0' evs Hc;
          apply try_commit_shape in Hc as (c & _ & [-> | ->]);
          [apply cbc_commit_seeded | apply cbc_commit_retry]; apply cbc_nil
        | intros s0 r s0' evs Hc;
          apply try_erase_all_shape in Hc as (c & _ & [-> | ->]);
          [apply cbc_erase_seeded | apply cbc_erase_retry]; apply cbc_nil
        | exact E1 ]. }
    unfold bind. rewrite E1. destruct r1; cbn [snd emit]; try assumption.
    apply call_by_call_app; [assumption | repeat constructor]. }
  split; [exact H | eapply call_by_call_counts; exact H].
Qed.

(** X2. [destroy_router()] is reached exactly when [spawn] runs to its
    end: a run that returns normally ends with the teardown and has no
    other; a run stopped by an exception or by [sys.exit] never tears the
    router down. *)
Theorem router_torn_down_iff_returned
  (St : Type) (ops : DeviceOps St) (fs : string -> option (list byte))
  (fuel : nat) (args : arguments) (s : St) :
  match fst (fst (spawn ops fs fuel args s)) with
  | Returned _ =>
      exists e, snd (spawn ops fs fuel args s) = e ++ [EvDestroyRouter]
                /\ Forall (fun x => is_teardown x = false) e
  | _ => Forall (fun x => is_teardown x = false)
           (snd (spawn ops fs fuel args s))
  end.
Proof.
  rewrite spawn_unfold.
  destruct (spawn_body ops fs fuel args s) as [[r1 s1] e1] eqn:E1.
  assert (H1 : Forall (fun x => is_teardown x = false) e1).
  { apply (spawn_body_closed St ops fs
             (Forall (fun x => is_teardown x = false)))
      with (fuel := fuel) (args := args) (s := s) (r := r1) (s' := s1);
      [ constructor
      | intros; now apply Forall_app
      | intros e He; constructor; [|constructor];
        destruct e; try reflexivity; discriminate He
      | intros a s0 r s0' evs Hc;
        apply try_commit_shape in Hc as (c & _ & [-> | ->]);
        repeat constructor
      | intros s0 r s0' evs Hc;
        apply try_erase_all_shape in Hc as (c & _ & [-> | ->]);
        repeat constructor
      | exact E1 ]. }
  unfold bind. rewrite E1. destruct r1; cbn [fst snd emit]; try assumption.
  exists e1. split; [reflexivity | assumption].
Qed.

(** X3. On a device whose reads return the flash content and change
    nothing, [compare_bin_w_device] returns normally, leaves the device as
    it was and issues nothing but flash reads (and progress reports).  It
    reads the words of the image in ascending order from
    [FLASH_START_ADDR], four per 16-byte chunk, a short last chunk counting
    as filled up with zeros, and stops at the first word that differs: it
    returns [True] exactly when every one of these words equals the flash
    word at its address. *)
Theorem compare_bin_w_device_spec
  (St : Type) (ops : DeviceOps St) (fs : string -> option (list byte))
  (flash : St -> Z -> Z) (bin_path str : string) (content : list byte)
  (s : St) :
  (forall st a, dev_read_flash_32 ops st a = (flash st a, st)) ->
  fs bin_path = Some content ->
  exists (b : bool) (m : nat) (evs : list event),
    compare_bin_w_device ops fs bin_path str s = (Returned b, s, evs)
    /\ Forall (fun e => is_scan e = true) evs
    /\ device_events evs = map (read_event (flash s)) (seq 0 m)
    /\ (b = true <->
        forall k, (k < 4 * num_chunks content)%nat ->
                  image_word content k = flash s (word_addr k))
    /\ (b = true -> m = (4 * num_chunks content)%nat)
    /\ (b = false ->
        (1 <= m <= 4 * num_chunks content)%nat
        /\ image_word content (m - 1) <> flash s (word_addr (m - 1))
        /\ forall k, (k < m - 1)%nat ->
                     image_word content k = flash s (word_addr k)).
Proof.
  intros Hread Hfs.
  destruct (compare_bin_w_device_scan St ops fs flash Hread bin_path str
              content s Hfs) as (evs & E & Hd).
  set (N := (4 * num_chunks content)%nat) in *.
  exists (fst (scan (flash s) content 0 N)),
         (snd (scan (flash s) content 0 N)), evs.
  split; [exact E|].
  split; [eapply compare_bin_w_device_events; exact E|].
  split; [exact Hd|].
  split.
  { rewrite scan_true. split; intros H k Hk; apply H; lia. }
  split.
  { apply scan_true_count. }
  intros Hb. destruct (scan_false _ _ _ _ Hb) as (Hc & Hne & Hall).
  cbv zeta in Hc, Hne, Hall. simpl in Hne, Hall.
  split; [exact Hc|]. split; [exact Hne|].
  intros k Hk. apply Hall. lia.
Qed.

(** A device on which only the first chunk of [Runs.image32] has been
    programmed. *)
Definition half_flashed_device : Sim.state := {|
  Sim.flash :=
    Sim.upd (Sim.upd (Sim.upd (Sim.upd (fun _ => Sim.blank)
      0x1000 1) 0x1004 2) 0x1008 3) 0x100C 4;
  Sim.scratch := fun _ => 0;
  Sim.silent := O
|}.

Lemma compare_bin_w_device_spec_witness :
  exists (b : bool) (m : nat) (evs : list event),
    compare_bin_w_device (Sim.ops Sim.good) (Sim.one_file Runs.image32)
      "fw.bin" "Comparing" half_flashed_device
    = (Returned b, half_flashed_device, evs)
    /\ Forall (fun e => is_scan e = true) evs
    /\ device_events evs
       = map (read_event (Sim.flash half_flashed_device)) (seq 0 m)
    /\ (b = true <->
        forall k, (k < 4 * num_chunks Runs.image32)%nat ->
                  image_word Runs.image32 k
                  = Sim.flash half_flashed_device (word_addr k))
    /\ (b = true -> m = (4 * num_chunks Runs.image32)%nat)
    /\ (b = false ->
        (1 <= m <= 4 * num_chunks Runs.image32)%nat
        /\ image_word Runs.image32 (m - 1)
           <> Sim.flash half_flashed_device (word_addr (m - 1))
        /\ forall k, (k < m - 1)%nat ->
                     image_word Runs.image32 k
                     = Sim.flash half_flashed_device (word_addr k)).
Proof.
  apply (compare_bin_w_device_spec _ (Sim.ops Sim.good)
           (Sim.one_file Runs.image32) Sim.flash "fw.bin" "Comparing"
           Runs.image32 half_flashed_device).
  - intros st a. reflexivity.
  - reflexivity.
Defined.

(** X4. Without [--force], an image that the comparator finds equal to the
    flash content is not flashed: [spawn] addresses the device, reads the
    flash, prints that the firmware matches and tears the router down.  It
    issues no erase, no scratch write, no commit and no reset, and it
    leaves the device in the state in which it answered. *)
Theorem matching_image_is_not_flashed
  (St : Type) (ops : DeviceOps St) (fs : string -> option (list byte))
  (flash : St -> Z -> Z) (fuel : nat) (args : arguments)
  (bin_path : string) (content : list byte) (s s1 : St) :
  (forall st a, dev_read_flash_32 ops st a = (flash st a, st)) ->
  arg_recovery args = false ->
  arg_force args = false ->
  arg_bin args = Some bin_path ->
  bin_path <> EmptyString ->
  fs bin_path = Some content ->
  dev_create ops s = (true, s1) ->
  (forall k, (k < 4 * num_chunks content)%nat ->
             image_word content k = flash s1 (word_addr k)) ->
  exists e_compare,
    spawn ops fs fuel args s
    = (Returned tt, s1,
       [EvInitRouter; EvCreateDevice true] ++ e_compare
       ++ [EvPrint "Device firmware matches the bin file. Skipping flash.";
           EvDestroyRouter])
    /\ Forall (fun e => is_scan e = true) e_compare.
Proof.
  intros Hread Hrec Hforce Hbin Hne Hfs Hcreate Hmatch.
  destruct (compare_bin_w_device_spec St ops fs flash bin_path "Comparing"
              content s1 Hread Hfs)
    as (b & m & e & E & Hscan & _ & Hb & _).
  assert (b = true) as -> by (now apply Hb).
  exists e. split; [|exact Hscan].
  assert (Hfl : flash_or_skip ops fs args bin_path s1
                = (Returned tt, s1,
                   e ++ [EvPrint
                     "Device firmware matches the bin file. Skipping flash."])).
  { unfold flash_or_skip. rewrite Hforce. cbn [negb].
    rewrite (bind_returned _ _ _ _ _ _ E). reflexivity. }
  assert (Hbody : spawn_body ops fs fuel args s
                  = (Returned tt, s1,
                     [EvInitRouter; EvCreateDevice true] ++ e ++ [EvPrint
                     "Device firmware matches the bin file. Skipping flash."])).
  { unfold spawn_body. cbv zeta. rewrite Hrec, Hbin. cbn [path_of].
    assert (Ht : truthy (Some bin_path) = true)
      by (destruct bin_path; [contradiction | reflexivity]).
    rewrite Ht. unfold is_file. rewrite Hfs. cbn [negb andb].
    rewrite bind_emit.
    assert (Hc : create_device ops s
                 = (Returned true, s1, [EvCreateDevice true]))
      by (unfold create_device; now rewrite Hcreate).
    rewrite (bind_returned _ _ _ _ _ _ Hc). cbn [negb].
    rewrite Hfl. reflexivity. }
  rewrite spawn_unfold, (bind_returned _ _ _ _ _ _ Hbody).
  cbn [emit]. rewrite <- !app_assoc. reflexivity.
Qed.

(** A device that already holds [Runs.image32]. *)
Definition flashed_device : Sim.state := {|
  Sim.flash :=
    Sim.upd (Sim.upd (Sim.upd (Sim.upd (Sim.upd (Sim.upd (Sim.upd (Sim.upd
      (fun _ => Sim.blank)
      0x1000 1) 0x1004 2) 0x1008 3) 0x100C 4)
      0x1010 5) 0x1014 6) 0x1018 7) 0x101C 8;
  Sim.scratch := fun _ => 0;
  Sim.silent := O
|}.

Lemma matching_image_is_not_flashed_witness :
  exists e_compare,
    spawn (Sim.ops Sim.good) (Sim.one_file Runs.image32) 0
      (Sim.args_bin false false) flashed_device
    = (Returned tt, flashed_device,
       [EvInitRouter; EvCreateDevice true] ++ e_compare
       ++ [EvPrint "Device firmware matches the bin file. Skipping flash.";
           EvDestroyRouter])
    /\ Forall (fun e => is_scan e = true) e_compare.
Proof.
  apply (matching_image_is_not_flashed _ (Sim.ops Sim.good)
           (Sim.one_file Runs.image32) Sim.flash 0%nat
           (Sim.args_bin false false) "fw.bin" Runs.image32
           flashed_device flashed_device).
  - intros st a. reflexivity.
  - reflexivity.
  - reflexivity.
  - reflexivity.
  - discriminate.
  - reflexivity.
  - reflexivity.
  - intros k Hk. change (4 * num_chunks Runs.image32)%nat with 8%nat in Hk.
    do 8 (destruct k as [|k]; [reflexivity|]). lia.
Defined.

Lemma printed_scan evs :
  Forall (fun e => is_scan e = true) evs -> printed evs = [].
Proof.
  induction 1 as [|e evs He _ IH]; [reflexivity|].
  destruct e; try discriminate He; exact IH.
Qed.

(** The run of [spawn] that goes through [upload_bin], given how each of
    its phases runs. *)
Lemma spawn_flash_run
  (St : Type) (ops : DeviceOps St) (fs : string -> option (list byte))
  (fuel : nat) (args : arguments) (bin_path : string)
  (s s1 s1' s2 s3 : St) (e_check e_upload e_verify : list event) (b : bool) :
  arg_recovery args = false ->
  arg_bin args = Some bin_path ->
  bin_path <> EmptyString ->
  is_file fs bin_path = true ->
  dev_create ops s = (true, s1) ->
  (if arg_force args then ret false
   else compare_bin_w_device ops fs bin_path "Comparing") s1
  = (Returned false, s1', e_check) ->
  upload_bin ops fs bin_path s1' = (Returned tt, s2, e_upload) ->
  compare_bin_w_device ops fs bin_path "Verifying" s2
  = (Returned b, s3, e_verify) ->
  spawn ops fs fuel args s
  = (Returned tt,
     (if arg_no_reset args then s3 else dev_reset ops s3),
     [EvInitRouter; EvCreateDevice true] ++ e_check
     ++ (if arg_force args then []
         else [EvPrint
           "Device firmware differs from bin file. Proceeding with flash."])
     ++ e_upload ++ e_verify
     ++ (if arg_no_reset args then []
         else [EvPrint "Resetting device..."; EvReset])
     ++ [EvDestroyRouter]).
Proof.
  intros Hrec Hbin Hne Hfile Hcreate Hcheck Hup Hver.
  assert (Hfl : flash_or_skip ops fs args bin_path s1
                = (Returned tt,
                   (if arg_no_reset args then s3 else dev_reset ops s3),
                   e_check
                   ++ (if arg_force args then []
                       else [EvPrint
             "Device firmware differs from bin file. Proceeding with flash."])
                   ++ e_upload ++ e_verify
                   ++ (if arg_no_reset args then []
                       else [EvPrint "Resetting device..."; EvReset]))).
  { unfold flash_or_skip.
    destruct (arg_force args); cbn [negb] in *.
    - apply ret_inv in Hcheck as (_ & -> & ->).
      rewrite bind_ret, bind_ret.
      rewrite (bind_returned _ _ _ _ _ _ Hup).
      rewrite (bind_returned _ _ _ _ _ _ Hver).
      destruct (arg_no_reset args); reflexivity.
    - rewrite (bind_returned _ _ _ _ _ _ Hcheck), bind_print.
      rewrite (bind_returned _ _ _ _ _ _ Hup).
      rewrite (bind_returned _ _ _ _ _ _ Hver).
      destruct (arg_no_reset args); reflexivity. }
  assert (Hbody : spawn_body ops fs fuel args s
                  = (Returned tt,
                     (if arg_no_reset args then s3 else dev_reset ops s3),
                     [EvInitRouter; EvCreateDevice true] ++ e_check
                     ++ (if arg_force args then []
                         else [EvPrint
             "Device firmware differs from bin file. Proceeding with flash."])
                     ++ e_upload ++ e_verify
                     ++ (if arg_no_reset args then []
                         else [EvPrint "Resetting device..."; EvReset]))).
  { unfold spawn_body. cbv zeta. rewrite Hrec, Hbin. cbn [path_of].
    assert (Ht : truthy (Some bin_path) = true)
      by (destruct bin_path; [contradiction | reflexivity]).
    rewrite Ht, Hfile. cbn [negb andb]. rewrite bind_emit.
    assert (Hc : create_device ops s
                 = (Returned true, s1, [EvCreateDevice true]))
      by (unfold create_device; now rewrite Hcreate).
    rewrite (bind_returned _ _ _ _ _ _ Hc). cbn [negb].
    rewrite Hfl. reflexivity. }
  rewrite spawn_unfold, (bind_returned _ _ _ _ _ _ Hbody).
  cbn [emit]. rewrite <- !app_assoc. reflexivity.
Qed.

(** X5. Once [upload_bin] has returned, [spawn] runs the comparator again
    under the label [Verifying] and throws its result away: whether it
    found the flash equal to the image or not, nothing is printed about
    it, the device is reset unless [--no-reset] was given, the router is
    torn down and [spawn] returns normally. *)
Theorem verify_result_is_discarded
  (St : Type) (ops : DeviceOps St) (fs : string -> option (list byte))
  (fuel : nat) (args : arguments) (bin_path : string)
  (s s1 s1' s2 s3 : St) (e_check e_upload e_verify : list event) (b : bool) :
  arg_recovery args = false ->
  arg_bin args = Some bin_path ->
  bin_path <> EmptyString ->
  is_file fs bin_path = true ->
  dev_create ops s = (true, s1) ->
  (if arg_force args then ret false
   else compare_bin_w_device ops fs bin_path "Comparing") s1
  = (Returned false, s1', e_check) ->
  upload_bin ops fs bin_path s1' = (Returned tt, s2, e_upload) ->
  compare_bin_w_device ops fs bin_path "Verifying" s2
  = (Returned b, s3, e_verify) ->
  spawn ops fs fuel args s
  = (Returned tt,
     (if arg_no_reset args then s3 else dev_reset ops s3),
     [EvInitRouter; EvCreateDevice true] ++ e_check
     ++ (if arg_force args then []
         else [EvPrint
           "Device firmware differs from bin file. Proceeding with flash."])
     ++ e_upload ++ e_verify
     ++ (if arg_no_reset args then []
         else [EvPrint "Resetting device..."; EvReset])
     ++ [EvDestroyRouter])
  /\ printed e_verify = [].
Proof.
  intros Hrec Hbin Hne Hfile Hcreate Hcheck Hup Hver. split.
  - eapply spawn_flash_run; eassumption.
  - eapply printed_scan, compare_bin_w_device_events; exact Hver.
Qed.

(** A device that stores a wrong first word at 0x1000 and still reports the
    checksum of what it was given. *)
Definition corrupting : Sim.config := {|
  Sim.supports_seed := true;
  Sim.erase_status := 0;
  Sim.bad_checksum_at := fun _ => false;
  Sim.corrupt_at := fun a => a =? 0x1000
|}.

Definition corrupt_upload :=
  upload_bin (Sim.ops corrupting) (Sim.one_file Runs.image32) "fw.bin"
    Sim.blank_device.

Definition corrupt_verify :=
  compare_bin_w_device (Sim.ops corrupting) (Sim.one_file Runs.image32)
    "fw.bin" "Verifying" (snd (fst corrupt_upload)).

Lemma verify_result_is_discarded_witness :
  fst (fst corrupt_verify) = Returned false
  /\ spawn (Sim.ops corrupting) (Sim.one_file Runs.image32) 0
       (Sim.args_bin true false) Sim.blank_device
     = (Returned tt,
        snd (fst corrupt_verify),
        [EvInitRouter; EvCreateDevice true] ++ []
        ++ [] ++ snd corrupt_upload ++ snd corrupt_verify
        ++ [EvPrint "Resetting device..."; EvReset]
        ++ [EvDestroyRouter])
  /\ printed (snd corrupt_verify) = [].
Proof.
  split; [vm_compute; reflexivity|].
  apply (verify_result_is_discarded _ (Sim.ops corrupting)
           (Sim.one_file Runs.image32) 0%nat (Sim.args_bin true false)
           "fw.bin" Sim.blank_device Sim.blank_device Sim.blank_device
           (snd (fst corrupt_upload)) (snd (fst corrupt_verify))
           [] (snd corrupt_upload) (snd corrupt_verify) false).
  - reflexivity.
  - reflexivity.
  - discriminate.
  - reflexivity.
  - reflexivity.
  - reflexivity.
  - vm_compute. reflexivity.
  - vm_compute. reflexivity.
Defined.

Lemma upload_bin_erase_failure
  (St : Type) (ops : DeviceOps St) (fs : string -> option (list byte))
  (bin_path : string) (content : list byte) (s s1 s2 : St)
  (nvm : option (list byte)) (e_backup e_erase : list event) (status : Z) :
  fs bin_path = Some content ->
  read_nvm_region ops s = (Returned nvm, s1, e_backup) ->
  try_erase_all ops s1 = (Returned status, s2, e_erase) ->
  status <> 0 ->
  upload_bin ops fs bin_path s
  = (Returned tt, s2,
     e_backup ++ [EvPrint (nl ++ "Erasing flash...")] ++ e_erase
     ++ [EvPrint (nl ++ "Error while erasing!")]).
Proof.
  intros Hfs Hbk Her Hst. unfold upload_bin. rewrite Hfs.
  rewrite (bind_returned _ _ _ _ _ _ Hbk), bind_print.
  rewrite (bind_returned _ _ _ _ _ _ Her).
  apply Z.eqb_neq in Hst. rewrite Hst. reflexivity.
Qed.

(** X8. A failed erase does not stop the pipeline.  When [erase_all]
    reports a non-zero status, [upload_bin] prints the error and returns
    like a successful upload, having programmed nothing and without
    restoring the NVM backup it read; [spawn] then runs the verification
    pass, resets the device unless [--no-reset] was given, tears the router
    down and returns normally. *)
Theorem erase_failure_is_followed_by_verify_and_reset
  (St : Type) (ops : DeviceOps St) (fs : string -> option (list byte))
  (fuel : nat) (args : arguments) (bin_path : string) (content : list byte)
  (s s1 s1' s2 s3 s4 : St) (nvm : option (list byte))
  (e_check e_backup e_erase e_verify : list event) (status : Z) (b : bool) :
  arg_recovery args = false ->
  arg_bin args = Some bin_path ->
  bin_path <> EmptyString ->
  fs bin_path = Some content ->
  dev_create ops s = (true, s1) ->
  (if arg_force args then ret false
   else compare_bin_w_device ops fs bin_path "Comparing") s1
  = (Returned false, s1', e_check) ->
  read_nvm_region ops s1' = (Returned nvm, s2, e_backup) ->
  try_erase_all ops s2 = (Returned status, s3, e_erase) ->
  status <> 0 ->
  compare_bin_w_device ops fs bin_path "Verifying" s3
  = (Returned b, s4, e_verify) ->
  spawn ops fs fuel args s
  = (Returned tt,
     (if arg_no_reset args then s4 else dev_reset ops s4),
     [EvInitRouter; EvCreateDevice true] ++ e_check
     ++ (if arg_force args then []
         else [EvPrint
           "Device firmware differs from bin file. Proceeding with flash."])
     ++ (e_backup ++ [EvPrint (nl ++ "Erasing flash...")] ++ e_erase
         ++ [EvPrint (nl ++ "Error while erasing!")])
     ++ e_verify
     ++ (if arg_no_reset args then []
         else [EvPrint "Resetting device..."; EvReset])
     ++ [EvDestroyRouter]).
Proof.
  intros Hrec Hbin Hne Hfs Hcreate Hcheck Hbk Her Hst Hver.
  eapply spawn_flash_run; try eassumption.
  - unfold is_file. now rewrite Hfs.
  - eapply upload_bin_erase_failure; eassumption.
Qed.

(** A device whose erase fails with status 1. *)
Definition erase_fails : Sim.config := {|
  Sim.supports_seed := true;
  Sim.erase_status := 1;
  Sim.bad_checksum_at := fun _ => false;
  Sim.corrupt_at := fun _ => false
|}.

Definition failing_backup := read_nvm_region (Sim.ops erase_fails) configured_device.

Lemma erase_failure_is_followed_by_verify_and_reset_witness :
  spawn (Sim.ops erase_fails) (Sim.one_file Runs.image32) 0
    (Sim.args_bin true false) configured_device
  = (Returned tt, configured_device,
     [EvInitRouter; EvCreateDevice true] ++ [] ++ []
     ++ (snd failing_backup ++ [EvPrint (nl ++ "Erasing flash...")]
         ++ [EvEraseAll (Some 0x1234ABCD) (Some 1)]
         ++ [EvPrint (nl ++ "Error while erasing!")])
     ++ [EvProgressAdd "[green]Verifying..." 32;
         EvReadFlash 0x1000 0xDEADBEEF]
     ++ [EvPrint "Resetting device..."; EvReset]
     ++ [EvDestroyRouter]).
Proof.
  apply (erase_failure_is_followed_by_verify_and_reset _
           (Sim.ops erase_fails) (Sim.one_file Runs.image32) 0%nat
           (Sim.args_bin true false) "fw.bin" Runs.image32
           configured_device configured_device configured_device
           configured_device configured_device configured_device
           (returned_or None (fst (fst failing_backup)))
           [] (snd failing_backup)
           [EvEraseAll (Some 0x1234ABCD) (Some 1)]
           [EvProgressAdd "[green]Verifying..." 32;
            EvReadFlash 0x1000 0xDEADBEEF]
           1 false).
  - reflexivity.
  - reflexivity.
  - discriminate.
  - reflexivity.
  - reflexivity.
  - reflexivity.
  - vm_compute. reflexivity.
  - reflexivity.
  - discriminate.
  - vm_compute. reflexivity.
Defined.

(** ** What the programming loop sends *)

(** Addresses of the commits the device carried out, in order. *)
Definition commit_addrs (evs : list event) : list Z :=
  flat_map (fun e => match e with
                     | EvCommit a _ (Some _) => [a]
                     | _ => []
                     end) evs.

(** Scratch writes (register index and value), in order. *)
Definition scratch_writes (evs : list event) : list (Z * Z) :=
  flat_map (fun e => match e with
                     | EvWriteScratch i v => [(i, v)]
                     | _ => []
                     end) evs.

(** The four scratch writes that load chunk [j] of the image. *)
Definition chunk_writes (content : list byte) (j : nat) : list (Z * Z) :=
  map (fun i => (Z.of_nat i, image_word content (4 * j + i))) (seq 0 4).

Lemma commit_addrs_app e1 e2 :
  commit_addrs (e1 ++ e2) = commit_addrs e1 ++ commit_addrs e2.
Proof. apply flat_map_app. Qed.

Lemma scratch_writes_app e1 e2 :
  scratch_writes (e1 ++ e2) = scratch_writes e1 ++ scratch_writes e2.
Proof. apply flat_map_app. Qed.

Lemma scratch_writes_scratch_events content j :
  scratch_writes (scratch_events (nth_chunk content j))
  = chunk_writes content j.
Proof.
  unfold scratch_events, chunk_writes, BIN_CHUNK_SIZE. cbn [seq flat_map map app scratch_writes].
  rewrite !chunk_word_nth_chunk by lia. reflexivity.
Qed.

Lemma program_loop_order
  (St : Type) (ops : DeviceOps St) (content : list byte) :
  forall n j fuel s r s' evs,
    n = (num_chunks content - j)%nat ->
    (n + 1 <= fuel)%nat ->
    program_loop ops fuel (nth_chunk content j) (unread_after content j)
      (chunk_addr j) s = (r, s', evs) ->
    exists m,
      (m <= n)%nat
      /\ commit_addrs evs = map chunk_addr (seq j m)
      /\ scratch_writes evs = flat_map (chunk_writes content) (seq j m)
      /\ (r = Returned tt /\ m = n \/ r = Exited 1 /\ (1 <= m)%nat).
Proof.
  induction n as [|n IH]; intros j fuel s r s' evs Hn Hfuel Hrun;
    (destruct fuel as [|fuel]; [lia|]); rewrite program_loop_S in Hrun.
  - assert (Hne : nonempty (nth_chunk content j) = false).
    { destruct (nonempty (nth_chunk content j)) eqn:E; [|reflexivity].
      apply nonempty_nth_chunk in E. lia. }
    rewrite Hne in Hrun. injection Hrun as <- <- <-.
    exists 0%nat. repeat split; auto.
  - assert (Hne : nonempty (nth_chunk content j) = true).
    { apply nonempty_nth_chunk. lia. }
    rewrite Hne in Hrun.
    rewrite (bind_returned _ _ _ _ _ _ (load_scratch_run _ ops _ s)) in Hrun.
    pose proof (scratch_writes_scratch_events content j) as Hss.
    remember (scratch_events (nth_chunk content j)) as se eqn:Hse.
    destruct (try_commit_run _ ops (chunk_addr j)
                (scratch_loaded _ ops (nth_chunk content j) s))
      as (c & s1 & pre & sd & Hc & Hpre).
    rewrite (bind_returned _ _ _ _ _ _ Hc) in Hrun. cbv zeta in Hrun.
    remember (pre ++ [EvCommit (chunk_addr j) sd (Some c)]) as ce eqn:Hce.
    assert (Hca : commit_addrs ce = [chunk_addr j])
      by (subst ce; destruct Hpre as [-> | ->]; reflexivity).
    assert (Hsw : scratch_writes ce = [])
      by (subst ce; destruct Hpre as [-> | ->]; reflexivity).
    clear Hce Hc.
    assert (Hcs : commit_addrs se = []) by (subst se; reflexivity).
    clear Hse.
    destruct (negb _) in Hrun.
    + rewrite bind_print in Hrun. unfold sys_exit in Hrun.
      injection Hrun as <- <- <-. exists 1%nat.
      split; [lia|].
      rewrite !commit_addrs_app, !scratch_writes_app, Hca, Hsw, Hcs, Hss.
      cbn [seq map flat_map app]. rewrite !app_nil_r.
      split; [reflexivity|]. split; [reflexivity|]. right. split; [reflexivity | lia].
    + rewrite file_read_unread in Hrun. cbv beta iota zeta in Hrun.
      rewrite chunk_addr_next, bind_emit in Hrun.
      destruct (program_loop ops fuel (nth_chunk content (S j))
                  (unread_after content (S j)) (chunk_addr (S j)) s1)
        as [[r2 s2] e2] eqn:E2.
      injection Hrun as <- <- <-.
      apply IH in E2; [|lia|lia].
      destruct E2 as (m & Hm & Ha & Hw & Hr).
      exists (S m). split; [lia|].
      rewrite !commit_addrs_app, !scratch_writes_app, Hca, Hsw, Hcs, Hss.
      change (commit_addrs (EvProgressUpdate ?x :: e2)) with (commit_addrs e2).
      change (scratch_writes (EvProgressUpdate ?x :: e2))
        with (scratch_writes e2).
      rewrite Ha, Hw. cbn [seq map flat_map app].
      split; [reflexivity|]. split; [reflexivity|].
      destruct Hr as [[-> ->] | [-> H1]]; [left | right]; split;
        try reflexivity; lia.
Qed.

(** X9. [upload_bin]'s programming loop sends the image chunk by chunk in
    ascending address order: for some number [m] of chunks, the commits the
    device carried out are at [FLASH_START_ADDR], [FLASH_START_ADDR + 16],
    ... (one per chunk), and the scratch writes are, chunk after chunk,
    registers 0 to 3 loaded with the chunk's four little-endian words
    (bytes missing from a short last chunk counting as zero).  The loop
    either returns with all chunks sent, or ends by [sys.exit(1)] after at
    least one commit. *)
Theorem program_sends_chunks_in_order
  (St : Type) (ops : DeviceOps St) (content : list byte) (s : St) :
  exists m,
    (m <= num_chunks content)%nat
    /\ commit_addrs (snd (program ops content s))
       = map chunk_addr (seq 0 m)
    /\ scratch_writes (snd (program ops content s))
       = flat_map (chunk_writes content) (seq 0 m)
    /\ (fst (fst (program ops content s)) = Returned tt
        /\ m = num_chunks content
        \/ fst (fst (program ops content s)) = Exited 1 /\ (1 <= m)%nat).
Proof.
  unfold program. cbv zeta. rewrite bind_emit, file_read_start.
  change FLASH_START_ADDR with (chunk_addr 0).
  destruct (program_loop ops _ _ _ _ s) as [[r2 s2] e2] eqn:E2.
  apply (program_loop_order _ ops content (num_chunks content - 0)) in E2;
    [| reflexivity | pose proof (num_chunks_le content); lia].
  rewrite Nat.sub_0_r in E2. destruct E2 as (m & Hm & Ha & Hw & Hr).
  exists m. cbn [fst snd]. repeat split; try assumption.
Qed.
